(** * Chatbotpy: the Slack-to-assistant relay of [src/api/app.py]

    A shallow embedding of the event-processing core of the relay: the
    reply formatter [format_links], the run client
    ([create_thread], [wait_for_run_completion], [get_thread_messages]),
    the notifier ([get_last_message], [send_gpt_response]) and the webhook
    handler [slack], followed by the properties of the specification that
    were checked against them.

    Conventions.
    - A Python [str] is a [string]; the formatter works on its sequence of
      characters ([list ascii]) with Python's [find] and slicing written
      out, negative indices included.
    - The module-level set [processed_events] is a [gset] of optional
      identifiers ([None] is Python's [None], what [data.get('event_id')]
      yields for a payload without that field).
    - The outside world (assistant backend, Slack, the state file) answers
      from scripts held in the [world]; every call is appended to the
      [calls] trace.  A network call whose script is exhausted never
      returns ([requests] and the Slack client are used without timeout).
    - A computation ends in [Ret v], in [Raise e] (a Python exception
      escapes) or in [Hang] (it is still running: blocked in a call, or a
      loop that used up its fuel); the world it reached is kept in every
      case. *)

From stdpp Require Import gmap strings list pretty.
From Stdlib Require Import ZArith Ascii String Lia.

Open Scope Z_scope.

(** ** Python string primitives *)

Module Py.

Definition chars := list ascii.

(** Index normalisation shared by slicing and [str.find]: a negative
    index counts from the end, and the result is clamped to [0, len]. *)
Definition norm_index (len i : Z) : Z :=
  if i <? 0 then Z.max 0 (i + len) else Z.min i len.

(** [s[lo:hi]] *)
Definition slice (s : chars) (lo hi : Z) : chars :=
  let len := Z.of_nat (List.length s) in
  let l := norm_index len lo in
  let h := norm_index len hi in
  take (Z.to_nat (h - l)) (drop (Z.to_nat l) s).

(** [s[:hi]] *)
Definition slice_to (s : chars) (hi : Z) : chars := slice s 0 hi.

(** [s[lo:]] *)
Definition slice_from (s : chars) (lo : Z) : chars :=
  slice s lo (Z.of_nat (List.length s)).

(** Offset of the first occurrence of [c] in [s]. *)
Fixpoint first_index (c : ascii) (s : chars) : option nat :=
  match s with
  | [] => None
  | x :: s' =>
      if Ascii.eqb x c then Some O
      else option_map S (first_index c s')
  end.

(** [s.find(c, start)] for a one-character needle: the lowest index
    [>= start] holding [c], or [-1]. *)
Definition find (c : ascii) (s : chars) (start : Z) : Z :=
  let len := Z.of_nat (List.length s) in
  if len <? start then -1
  else
    let b := norm_index len start in
    match first_index c (drop (Z.to_nat b) s) with
    | Some k => b + Z.of_nat k
    | None => -1
    end.

End Py.

(** ** Reply formatter (lines 101-113) *)

Definition slack_link (url link_text : Py.chars) : Py.chars :=
  ["<"%char] ++ url ++ ["|"%char] ++ link_text ++ [">"%char].

(** The body of [while True:]; [fuel] bounds the number of iterations and
    [None] says that the loop has not left within that bound. *)
Fixpoint format_links_loop (fuel : nat) (formatted_text : Py.chars)
  : option Py.chars :=
  match fuel with
  | O => None
  | S fuel' =>
      let start_idx := Py.find "["%char formatted_text 0 in
      let end_idx := Py.find ")"%char formatted_text start_idx in
      if (start_idx =? -1) || (end_idx =? -1) then Some formatted_text
      else
        let link_text :=
          Py.slice formatted_text (start_idx + 1)
                   (Py.find "]"%char formatted_text start_idx) in
        let url :=
          Py.slice formatted_text
                   (Py.find "("%char formatted_text start_idx + 1) end_idx in
        format_links_loop fuel'
          (Py.slice_to formatted_text start_idx
             ++ slack_link url link_text
             ++ Py.slice_from formatted_text (end_idx + 1))
  end.

Definition format_links (fuel : nat) (text : string) : option string :=
  string_of_list_ascii <$>
    format_links_loop fuel (list_ascii_of_string text).

(** ** Outcomes, exceptions and the outside world *)

(** The two kinds of exception the handler distinguishes: slack_sdk's
    [SlackApiError], which carries [e.response['error']] next to its
    string form, and every other [Exception] with its [str(e)]. *)
Inductive exn :=
| SlackApiError (error : string) (str : string)
| Exception (msg : string).

Definition str (e : exn) : string :=
  match e with
  | SlackApiError _ s => s
  | Exception msg => msg
  end.

Inductive outcome (A : Type) :=
| Ret (a : A)
| Raise (e : exn)
| Hang.
Arguments Ret {A} a.
Arguments Raise {A} e.
Arguments Hang {A}.

(** Identifier of an event as the handler reads it: [data.get('event_id')]. *)
Abbreviation ident := (option string).

(** Calls that leave the process, in the order they are issued. *)
Inductive call :=
| PostThreadsRuns (input_text : string)
| GetRuns (thread_id : option string)
| GetMessages (thread_id : option string)
| Sleep (seconds : Z)
| ConversationsReplies (channel ts : option string)
| ChatPostMessage (channel thread_ts : option string) (text : string)
| DumpFile (ids : list ident).

(** What [requests] hands back: [status_code], [text] and the decoded body. *)
Record http_response (J : Type) := HttpResponse {
  status_code : Z;
  text : string;
  json : J;
}.
Arguments HttpResponse {J}.
Arguments status_code {J}.
Arguments text {J}.
Arguments json {J}.

(** Body of [POST /threads/runs], read through [.get('thread_id')]. *)
Record thread_run := ThreadRun { thread_id : option string }.

(** Body of [GET /threads/{id}/messages], as far as lines 201-204 look
    into it: [data] is absent or a list of messages; the [content] of a
    message is absent (or not a list) or a list of parts; a part holds
    [text.value] or has no ['text'] key. *)
Definition part := option string.
Record message := Message { content : option (list part) }.
Record messages_json := MessagesJson { data : option (list message) }.

(** Answer of a Slack Web API method: the payload, or the [SlackApiError]
    that the client raises. *)
Inductive slack_answer (A : Type) :=
| SlackOk (a : A)
| SlackFails (error : string) (str : string).
Arguments SlackOk {A} a.
Arguments SlackFails {A} error str.

(** Fate of one rewrite of the state file: written, [open] failed (file
    untouched), or [json.dump] failed after the file was truncated. *)
Inductive write_answer := Written | OpenFails | DumpFails.

Record world := World {
  (* process state *)
  processed_events : gset ident;
  (* processed_events.json: the list it holds, if it is readable *)
  persisted : option (list ident);
  (* trace of issued calls *)
  calls : list call;
  (* scripted answers *)
  disk : list write_answer;
  runs_created : list (http_response thread_run);
  runs_listed : list (list string);   (* data[i]['status'] of each poll *)
  messages_listed : list (http_response messages_json);
  replies : list (slack_answer (list string)); (* 'text' of each message *)
  posts : list (slack_answer unit);
}.

Definition M (A : Type) : Type := world -> outcome A * world.

Definition ret {A} (a : A) : M A := fun w => (Ret a, w).
Definition raise {A} (e : exn) : M A := fun w => (Raise e, w).
Definition hang {A} : M A := fun w => (Hang, w).

Definition bind {A B} (m : M A) (k : A -> M B) : M B :=
  fun w =>
    match m w with
    | (Ret a, w') => k a w'
    | (Raise e, w') => (Raise e, w')
    | (Hang, w') => (Hang, w')
    end.

(** [try: m  except Exception as e: h e] *)
Definition try_except {A} (m : M A) (h : exn -> M A) : M A :=
  fun w =>
    match m w with
    | (Raise e, w') => h e w'
    | r => r
    end.

(** [try: m  except SlackApiError as e: h e]; [h] receives
    [e.response['error']]. *)
Definition try_except_slack {A} (m : M A) (h : string -> M A) : M A :=
  fun w =>
    match m w with
    | (Raise (SlackApiError error _), w') => h error w'
    | r => r
    end.

(** stdpp's monad notations: [x ← m; k] and [m;; k]. *)
#[global] Instance M_ret : MRet M := @ret.
#[global] Instance M_bind : MBind M := fun A B k m => bind m k.

(** Field updates. *)
Definition with_processed_events (s : gset ident) (w : world) : world :=
  World s (persisted w) (calls w) (disk w) (runs_created w) (runs_listed w)
        (messages_listed w) (replies w) (posts w).
Definition with_persisted (p : option (list ident)) (w : world) : world :=
  World (processed_events w) p (calls w) (disk w) (runs_created w)
        (runs_listed w) (messages_listed w) (replies w) (posts w).
Definition with_calls (c : list call) (w : world) : world :=
  World (processed_events w) (persisted w) c (disk w) (runs_created w)
        (runs_listed w) (messages_listed w) (replies w) (posts w).
Definition with_disk (d : list write_answer) (w : world) : world :=
  World (processed_events w) (persisted w) (calls w) d (runs_created w)
        (runs_listed w) (messages_listed w) (replies w) (posts w).
Definition with_runs_created (l : list (http_response thread_run))
    (w : world) : world :=
  World (processed_events w) (persisted w) (calls w) (disk w) l
        (runs_listed w) (messages_listed w) (replies w) (posts w).
Definition with_runs_listed (l : list (list string)) (w : world) : world :=
  World (processed_events w) (persisted w) (calls w) (disk w)
        (runs_created w) l (messages_listed w) (replies w) (posts w).
Definition with_messages_listed (l : list (http_response messages_json))
    (w : world) : world :=
  World (processed_events w) (persisted w) (calls w) (disk w)
        (runs_created w) (runs_listed w) l (replies w) (posts w).
Definition with_replies (l : list (slack_answer (list string)))
    (w : world) : world :=
  World (processed_events w) (persisted w) (calls w) (disk w)
        (runs_created w) (runs_listed w) (messages_listed w) l (posts w).
Definition with_posts (l : list (slack_answer unit)) (w : world) : world :=
  World (processed_events w) (persisted w) (calls w) (disk w)
        (runs_created w) (runs_listed w) (messages_listed w) (replies w) l.

(** Issue a call: it is appended to the trace. *)
Definition issue (c : call) : M unit :=
  fun w => (Ret tt, with_calls (calls w ++ [c]) w).

(** Take the next scripted answer; with none left the call never returns. *)
Definition answer {A} (script : world -> list A)
    (rest : list A -> world -> world) : M A :=
  fun w =>
    match script w with
    | [] => (Hang, w)
    | a :: l => (Ret a, rest l w)
    end.

(** ** Deduplication store (lines 27-47) *)

(** [load_processed_events()]: the set read back from the state file, the
    empty set when the file is absent or unreadable. *)
Definition load_processed_events (w : world) : gset ident :=
  match persisted w with
  | Some ids => list_to_set ids
  | None => ∅
  end.

(** [save_processed_events(events)]: one full rewrite of the file with
    [list(events)].  The [disk] script lists the fate of the coming
    rewrites; once it is used up every rewrite succeeds.  A failure is
    logged and swallowed (line 44). *)
Definition save_processed_events (events : gset ident) : M unit :=
  fun w =>
    let ids := elements events in
    let w1 := with_calls (calls w ++ [DumpFile ids]) w in
    match disk w with
    | [] => (Ret tt, with_persisted (Some ids) w1)
    | Written :: d => (Ret tt, with_disk d (with_persisted (Some ids) w1))
    | OpenFails :: d => (Ret tt, with_disk d w1)
    | DumpFails :: d => (Ret tt, with_disk d (with_persisted None w1))
    end.

(** Process start (line 47): the module-level set is loaded from the file. *)
Definition start_process (w : world) : world :=
  with_processed_events (load_processed_events w) w.

(** ** Assistant run client (lines 49-99) *)

Definition create_thread (input_text : string) : M thread_run :=
  issue (PostThreadsRuns input_text);;
  response ← answer runs_created with_runs_created;
  if bool_decide (status_code response ≠ 200) then
    raise (Exception ("Failed to create thread: "
                        +:+ pretty (status_code response) +:+ ", "
                        +:+ text response))
  else mret (json response).

Definition terminal_statuses : list string :=
  ["completed"; "failed"; "incomplete"]%string.

(** The [while True:] of [wait_for_run_completion].  Every iteration
    issues one status request and consumes its answer, so the loop is
    defined by recursion on the answers the backend has left; it hangs in
    the request that gets none.  [run_data['data'][0]] on an empty list
    raises [IndexError]. *)
Fixpoint poll (thread_id : option string) (script : list (list string))
    (trace : list call) : outcome string * list (list string) * list call :=
  match script with
  | [] => (Hang, [], trace ++ [GetRuns thread_id])
  | run_data :: script' =>
      let trace' := trace ++ [GetRuns thread_id] in
      match run_data with
      | [] => (Raise (Exception "list index out of range"), script', trace')
      | status :: _ =>
          if bool_decide (status ∈ terminal_statuses)
          then (Ret status, script', trace')
          else poll thread_id script' (trace' ++ [Sleep 5])
      end
  end.

Definition wait_for_run_completion (thread_id : option string) : M string :=
  fun w =>
    let '(o, script, trace) := poll thread_id (runs_listed w) (calls w) in
    (o, with_runs_listed script (with_calls trace w)).

Definition get_thread_messages (thread_id : option string)
  : M messages_json :=
  issue (GetMessages thread_id);;
  response ← answer messages_listed with_messages_listed;
  if bool_decide (status_code response ≠ 200) then
    raise (Exception ("Failed to get thread messages: "
                        +:+ pretty (status_code response) +:+ ", "
                        +:+ text response))
  else mret (json response).

(** ** Outbound notifier (lines 115-152) *)

(** The two Web API methods of [slack_client]. *)
Definition conversations_replies (channel ts : option string)
  : M (list string) :=
  issue (ConversationsReplies channel ts);;
  a ← answer replies with_replies;
  match a with
  | SlackOk messages => mret messages
  | SlackFails error s => raise (SlackApiError error s)
  end.

Definition chat_postMessage (channel thread_ts : option string)
    (text : string) : M unit :=
  issue (ChatPostMessage channel thread_ts text);;
  a ← answer posts with_posts;
  match a with
  | SlackOk _ => mret tt
  | SlackFails error s => raise (SlackApiError error s)
  end.

Definition get_last_message (channel thread_ts : option string)
  : M (option string) :=
  try_except_slack
    (messages ← conversations_replies channel thread_ts;
     mret (last messages))
    (fun _ => mret None).

Section Relay.

(** [os.getenv("SLACK_ADMIN_MEMBER_ID")] *)
Variable SLACK_ADMIN_MEMBER_ID : string.

(** [fuel] bounds the loop of [format_links].  When the formatter does not
    return, neither does the notifier: it is left in line 131.  (CPython
    ends such a run with [MemoryError] once the growing text exceeds the
    memory of the process; the texts of the model have no size limit.) *)
Definition send_gpt_response (fuel : nat)
    (channel thread_ts : option string) (text : string) : M unit :=
  match format_links fuel text with
  | None => hang
  | Some formatted_text =>
      last_message ← get_last_message channel thread_ts;
      if bool_decide (last_message ≠ Some formatted_text) then
        try_except_slack
          (chat_postMessage channel thread_ts formatted_text)
          (fun error =>
             let error_message :=
               "Error sending message to Slack: " +:+ error in
             chat_postMessage channel thread_ts
               ("<@" +:+ SLACK_ADMIN_MEMBER_ID +:+ "> " +:+ error_message))
      else mret tt
  end.

(** ** Event intake coordinator (lines 154-219) *)

(** The webhook call: the JSON body as far as the handler reads it, and
    the [X-Slack-Retry-Num] header. *)
Record request := Request {
  type : option string;          (* data.get('type') *)
  challenge : option string;     (* data.get('challenge') *)
  event_id : ident;              (* data.get('event_id') *)
  user_message : string;         (* event.get('text', '') *)
  channel_id : option string;    (* event.get('channel') *)
  thread_ts : option string;     (* event.get('ts') *)
  retry_num : option string;     (* request.headers.get(...) *)
}.

(** [jsonify] of the dictionaries the handler returns. *)
Inductive response :=
| JsonChallenge (challenge : option string)
| JsonStatus (status : string) (message : option string).

(** Truth value of [retry_num]: [None] and the empty string are false. *)
Definition truthy (s : option string) : bool :=
  match s with
  | None => false
  | Some s => negb (bool_decide (s = ""%string))
  end.

(** Lines 156-180: handshake, retry acknowledgement and the dedup check.
    [inl] is the response returned there, [inr tt] falls through to the
    [with event_lock:] block. *)
Definition intake (req : request) : M (response + unit) :=
  fun w =>
    if bool_decide (type req = Some "url_verification"%string) then
      (Ret (inl (JsonChallenge (challenge req))), w)
    else if truthy (retry_num req) then
      (Ret (inl (JsonStatus "ok" None)), w)
    else if bool_decide (event_id req ∈ processed_events w) then
      (Ret (inl (JsonStatus "ok" (Some "Event already processed"%string))), w)
    else (Ret (inr tt), w).

(** Lines 184-185: mark the event as processed and rewrite the file. *)
Definition claim (req : request) : M unit :=
  fun w =>
    let w' := with_processed_events ({[ event_id req ]} ∪ processed_events w) w in
    save_processed_events (processed_events w') w'.

(** Lines 201-208. *)
Definition last_message_of (messages : messages_json) : M string :=
  match data messages with
  | Some (m :: _) =>
      match content m with
      | Some (Some value :: _) => mret value
      | _ => raise (Exception "Unexpected API response structure")
      end
  | _ => raise (Exception "Unexpected API response structure")
  end.

(** Lines 195-211: the run is completed. *)
Definition reply_completed (fuel : nat) (req : request)
    (thread_id : option string) : M response :=
  messages ← get_thread_messages thread_id;
  last_message ← last_message_of messages;
  send_gpt_response fuel (channel_id req) (thread_ts req) last_message;;
  mret (JsonStatus "ok" None).

(** Lines 213-215: the run ended otherwise. *)
Definition reply_failed (fuel : nat) (req : request) (status : string)
  : M response :=
  let error_message := "Run failed with status: " +:+ status in
  send_gpt_response fuel (channel_id req) (thread_ts req) error_message;;
  mret (JsonStatus "error" (Some error_message)).

(** Lines 216-219: [except Exception as e]. *)
Definition on_exception (fuel : nat) (req : request) (e : exn)
  : M response :=
  let error_message := "Error: " +:+ str e in
  send_gpt_response fuel (channel_id req) (thread_ts req) error_message;;
  mret (JsonStatus "error" (Some error_message)).

(** Lines 187-219: the [try] block and its handler. *)
Definition execute (fuel : nat) (req : request) : M response :=
  try_except
    (run ← create_thread (user_message req);
     status ← wait_for_run_completion (thread_id run);
     if bool_decide (status = "completed"%string)
     then reply_completed fuel req (thread_id run)
     else reply_failed fuel req status)
    (on_exception fuel req).

(** The handler, run by one thread on its own. *)
Definition slack (fuel : nat) (req : request) : M response :=
  r ← intake req;
  match r with
  | inl resp => mret resp
  | inr _ => claim req;; execute fuel req
  end.

(** ** Concurrent deliveries (lines 29, 178-185)

    The server handles every webhook call on a thread of its own.  A
    thread advances through the handler in atomic steps: the intake up
    to the dedup check (which only reads the shared set), the
    acquisition of [event_lock] (enabled when the lock is free), the
    claim, and the [try] block, at whose end the lock is released.
    While a thread is inside the [with] block the others can only run
    their intake or wait for the lock, and the [try] block does not
    write the set, so taking it as one step loses no interleaving. *)

Inductive pc :=
| AtIntake                          (* line 156 *)
| AtLock                            (* line 182, before the lock is taken *)
| AtClaim                           (* line 184, lock held *)
| AtExecute                         (* line 187, lock held *)
| Finished (o : outcome response).  (* returned, raised, or hanging
                                       inside the block *)

Record thread := Thread { th_request : request; th_pc : pc }.

Record system := System {
  shared : world;
  lock_held : bool;
  threads : list thread;
}.

Definition at_pc (i : nat) (p : pc) (ts : list thread) : list thread :=
  alter (fun th => Thread (th_request th) p) i ts.

(** Thread [i] takes its next step; [None] when it has none to take (no
    such thread, finished, or waiting for a lock that is held). *)
Definition step (fuel : nat) (i : nat) (sys : system) : option system :=
  th ← threads sys !! i;
  match th_pc th with
  | AtIntake =>
      let '(o, w) := intake (th_request th) (shared sys) in
      let p := match o with
               | Ret (inl resp) => Finished (Ret resp)
               | Ret (inr _) => AtLock
               | Raise e => Finished (Raise e)
               | Hang => Finished Hang
               end in
      Some (System w (lock_held sys) (at_pc i p (threads sys)))
  | AtLock =>
      if lock_held sys then None
      else Some (System (shared sys) true (at_pc i AtClaim (threads sys)))
  | AtClaim =>
      let '(o, w) := claim (th_request th) (shared sys) in
      match o with
      | Ret _ => Some (System w true (at_pc i AtExecute (threads sys)))
      | Raise e =>
          Some (System w false (at_pc i (Finished (Raise e)) (threads sys)))
      | Hang => Some (System w true (at_pc i (Finished Hang) (threads sys)))
      end
  | AtExecute =>
      let '(o, w) := execute fuel (th_request th) (shared sys) in
      match o with
      | Hang => Some (System w true (at_pc i (Finished Hang) (threads sys)))
      | _ => Some (System w false (at_pc i (Finished o) (threads sys)))
      end
  | Finished _ => None
  end.

(** A schedule names the thread that moves at each step. *)
Fixpoint run (fuel : nat) (schedule : list nat) (sys : system)
  : option system :=
  match schedule with
  | [] => Some sys
  | i :: schedule' => sys' ← step fuel i sys; run fuel schedule' sys'
  end.

(** The server at the arrival of the given calls. *)
Definition deliver (reqs : list request) (w : world) : system :=
  System w false ((fun r => Thread r AtIntake) <$> reqs).

(** Classification of the calls of a trace. *)
Definition is_run_creation (c : call) : bool :=
  match c with PostThreadsRuns _ => true | _ => false end.
Definition is_poll (c : call) : bool :=
  match c with GetRuns _ => true | _ => false end.
Definition is_message_fetch (c : call) : bool :=
  match c with GetMessages _ => true | _ => false end.

Definition count (p : call -> bool) (trace : list call) : nat :=
  List.length (List.filter p trace).

End Relay.

(** ** Vocabulary of the statements *)

(** An answer to a status request after which the loop of
    [wait_for_run_completion] goes round again: its first run has a status
    outside [terminal_statuses]. *)
Definition pending_answer (run_data : list string) : Prop :=
  exists status more, run_data = status :: more /\ status ∉ terminal_statuses.

(** The calls of [n] rounds of the loop that did not leave it. *)
Fixpoint waits (thread_id : option string) (n : nat) : list call :=
  match n with
  | O => []
  | S n' => GetRuns thread_id :: Sleep 5 :: waits thread_id n'
  end.

(** What [get_last_message] makes of the answer to its lookup. *)
Definition last_seen (a : slack_answer (list string)) : option string :=
  match a with
  | SlackOk messages => last messages
  | SlackFails _ _ => None
  end.

(** Calls to the chat platform. *)
Definition slack_call (c : call) : Prop :=
  match c with
  | ConversationsReplies _ _ | ChatPostMessage _ _ _ => True
  | _ => False
  end.

(** What a computation may do to the world.

    [advances ok w w']: from [w] to [w'] the set of processed events, the
    state file and the disk are untouched, scripted answers may have been
    consumed, and the trace has grown by calls that satisfy [ok].
    [follows R m]: running [m] moves every world to an [R]-related one. *)

Definition advances (ok : call -> Prop) (w w' : world) : Prop :=
  processed_events w' = processed_events w /\
  persisted w' = persisted w /\
  disk w' = disk w /\
  exists trace, calls w' = calls w ++ trace /\ Forall ok trace.

Definition follows {A} (R : relation world) (m : M A) : Prop :=
  forall w, R w (m w).2.

(** ** Texts with well-formed links

    The words of the specification about the formatter, written out: a
    text with well-formed links is a run of segments [plain [label](url)]
    followed by a tail, and its rewriting puts [<url|label>] in place of
    every link. *)

Record segment := Segment {
  plain : Py.chars;
  label : Py.chars;
  url : Py.chars;
}.

Fixpoint markdown (segments : list segment) (tail : Py.chars) : Py.chars :=
  match segments with
  | [] => tail
  | s :: segments' =>
      plain s ++ "["%char :: label s ++ "]"%char :: "("%char :: url s
        ++ ")"%char :: markdown segments' tail
  end.

Fixpoint slack_markup (segments : list segment) (tail : Py.chars)
  : Py.chars :=
  match segments with
  | [] => tail
  | s :: segments' =>
      plain s ++ slack_link (url s) (label s) ++ slack_markup segments' tail
  end.

(** Every ["["] of the text opens a link: none occurs in the plain text,
    in a label or in a URL; a label holds no bracket or parenthesis at
    all, and a URL no [")"]. *)
Definition well_formed_segment (s : segment) : Prop :=
  ("["%char ∉ plain s) /\
  (("["%char ∉ label s) /\ ("]"%char ∉ label s) /\
   ("("%char ∉ label s) /\ (")"%char ∉ label s)) /\
  (("["%char ∉ url s) /\ (")"%char ∉ url s)).

Definition well_formed (t : Py.chars) : Prop :=
  exists segments tail,
    t = markdown segments tail /\
    Forall well_formed_segment segments /\ ("["%char ∉ tail).

(** Texts on which the loop never leaves: the first ["["] is followed by a
    [")"] and only then by a ["]"], and no ["("] follows it. *)
Definition runaway (t : Py.chars) : Prop :=
  exists L M R T,
    t = L ++ "["%char :: M ++ ")"%char :: R ++ "]"%char :: T /\
    ("["%char ∉ L) /\
    ((")"%char ∉ M) /\ ("]"%char ∉ M) /\ ("("%char ∉ M)) /\
    (("]"%char ∉ R) /\ ("("%char ∉ R)) /\
    ("("%char ∉ T).

(** ** Scenarios

    Concrete calls and worlds on which the statements below are
    evaluated. *)

Module Scenario.
Open Scope string_scope.

Definition admin : string := "U0ADMIN".

(** An [app_mention]-like delivery of event [Ev1]. *)
Definition delivery : request :=
  Request (Some "event_callback") None (Some "Ev1") "hello"
          (Some "C1") (Some "1700.01") None.

(** A delivery whose payload has no [event_id]. *)
Definition anonymous_delivery : request :=
  Request (Some "event_callback") None None "hello"
          (Some "C1") (Some "1700.01") None.

Definition created (tid : string) : http_response thread_run :=
  HttpResponse 200 "{}" (ThreadRun (Some tid)).

Definition answered (reply : string) : http_response messages_json :=
  HttpResponse 200 "{}" (MessagesJson (Some [Message (Some [Some reply])])).

(** [Ev1] was processed before. *)
Definition seen : world :=
  World {[ Some "Ev1" ]} (Some [Some "Ev1"]) [] [] [] [] [] [] [].

(** The backend serves two runs that complete at their first poll, and
    Slack accepts every message. *)
Definition two_runs : world :=
  World ∅ None [] []
    [created "thread_a"; created "thread_b"]
    [["completed"]; ["completed"]]
    [answered "see [docs](http://x/y) now"; answered "see [docs](http://x/y) now"]
    [SlackOk ["hello"]; SlackOk ["hello"]]
    [SlackOk tt; SlackOk tt].

(** One run observed as queued, in progress twice, then completed. *)
Definition slow_run : world :=
  World ∅ None [] []
    [created "thread_a"]
    [["queued"]; ["in_progress"]; ["in_progress"]; ["completed"]]
    [answered "see [docs](http://x/y) now"]
    [SlackOk ["hello"]]
    [SlackOk tt].

(** One completed run whose reply Slack refuses; the alert is accepted. *)
Definition refused_send : world :=
  World ∅ None [] []
    [created "thread_a"]
    [["completed"]]
    [answered "see [docs](http://x/y) now"]
    [SlackOk ["hello"]]
    [SlackFails "channel_not_found" "The request to the Slack API failed.";
     SlackOk tt].

(** A run that is cancelled, and reported as completed afterwards. *)
Definition cancelled_run : world :=
  World ∅ None [] [] [] [["cancelled"]; ["completed"]] [] [] [].

(** The thread already ends with the formatted reply. *)
Definition already_posted : world :=
  World ∅ None [] [] [] [] []
    [SlackOk ["hello"; "see <http://x/y|docs> now"]] [].

(** [Ev0] is on file and in memory, and the next rewrite of the file fails
    in [json.dump]. *)
Definition full_disk : world :=
  World {[ Some "Ev0" ]} (Some [Some "Ev0"]) [] [DumpFails] [] [] [] [] [].

(** The polls observe a run that is queued, then in progress, and no more
    answers come. *)
Definition stalled_run : world :=
  World ∅ None [] [] [created "thread_a"] [["queued"]; ["in_progress"]]
    [] [] [].




(** The run completes and Slack refuses every message. *)
Definition slack_down : world :=
  World ∅ None [] []
    [created "thread_a"] [["completed"]]
    [answered "see [docs](http://x/y) now"]
    [SlackOk ["hello"]; SlackOk ["hello"]]
    [SlackFails "ratelimited" "rate limited (1)";
     SlackFails "ratelimited" "rate limited (2)";
     SlackFails "ratelimited" "rate limited (3)";
     SlackFails "ratelimited" "rate limited (4)"].

(** A handshake that also carries a retry header and a known event. *)
Definition handshake : request :=
  Request (Some "url_verification") (Some "abc123") (Some "Ev1") ""
          None None (Some "1").

(** First retry of the delivery of [Ev1]. *)
Definition retried_delivery : request :=
  Request (Some "event_callback") None (Some "Ev1") "hello"
          (Some "C1") (Some "1700.01") (Some "1").

(** The delivery of [Ev1] with an empty retry header. *)
Definition delivery_with_empty_header : request :=
  Request (Some "event_callback") None (Some "Ev1") "hello"
          (Some "C1") (Some "1700.01") (Some "").

(** A thread that ends with "hello"; Slack accepts messages. *)
Definition open_thread : world :=
  World ∅ None [] [] [] [] [] [SlackOk ["hello"]] [SlackOk tt].

End Scenario.

(** ** Vocabulary of the further properties *)


(** Status requests and the sleeps between them. *)
Definition poll_or_sleep (c : call) : Prop :=
  match c with
  | GetRuns _ | Sleep _ => True
  | _ => False
  end.

(** [may_return Q m]: a value returned by [m] satisfies [Q]. *)
Definition may_return {A} (Q : A -> Prop) (m : M A) : Prop :=
  forall w a w', m w = (Ret a, w') -> Q a.

(** Threads inside the [with event_lock:] block: at the claim, in step 5,
    or blocked in step 5 for good.  (A thread ends in [Finished Hang] only
    there: the intake and the claim always return.) *)
Definition inside (th : thread) : bool :=
  match th_pc th with
  | AtClaim | AtExecute | Finished Hang => true
  | _ => false
  end.

Definition holders (sys : system) : nat :=
  List.length (List.filter inside (threads sys)).

(** Exactly one thread is inside the block when the lock is held, and none
    when it is free. *)
Definition exclusive (sys : system) : Prop :=
  holders sys = if lock_held sys then 1%nat else O.

(** The call [req] with the retry header taken away. *)
Definition without_retry_header (req : request) : request :=
  Request (type req) (challenge req) (event_id req) (user_message req)
          (channel_id req) (thread_ts req) None.

(** The responses of step 5. *)
Definition step_5_response (r : response) : Prop :=
  r = JsonStatus "ok" None \/ exists msg, r = JsonStatus "error" (Some msg).

(** * Properties *)

(** ** Python string primitives on decomposed texts *)

(** Texts are compared up to the bracketing of [++]. *)
Ltac reassoc :=
  repeat (rewrite <- app_assoc || rewrite <- app_comm_cons || cbn [app]);
  try reflexivity.

(** Absence of a character from a text given by its pieces. *)
Ltac absent :=
  unfold slack_link;
  repeat (rewrite not_elem_of_app || rewrite not_elem_of_cons);
  repeat split; try done; try apply not_elem_of_nil.

Section PyFacts.
Implicit Types (c : ascii) (A B C s : Py.chars).

Lemma first_index_absent c s : c ∉ s -> Py.first_index c s = None.
Proof.
  induction s as [|x s IH]; simpl; [done|].
  intros Hn. apply not_elem_of_cons in Hn as [Hne Hn].
  destruct (Ascii.eqb_spec x c) as [->|_]; [done|].
  by rewrite IH.
Qed.

Lemma first_index_hit c B C :
  c ∉ B -> Py.first_index c (B ++ c :: C) = Some (List.length B).
Proof.
  induction B as [|x B IH]; simpl; intros Hn.
  - by rewrite Ascii.eqb_refl.
  - apply not_elem_of_cons in Hn as [Hne Hn].
    destruct (Ascii.eqb_spec x c) as [->|_]; [done|].
    by rewrite IH.
Qed.

Lemma norm_index_in_range (len i : Z) :
  0 <= i <= len -> Py.norm_index len i = i.
Proof.
  intros ?. unfold Py.norm_index.
  destruct (Z.ltb_spec i 0); lia.
Qed.

(** [find] started at the end of [A] finds the first [c] behind it. *)
Lemma find_hit c A B C (start : Z) :
  start = Z.of_nat (List.length A) -> c ∉ B ->
  Py.find c (A ++ B ++ c :: C) start = Z.of_nat (List.length A + List.length B).
Proof.
  intros -> Hn. unfold Py.find.
  rewrite length_app.
  destruct (Z.ltb_spec (Z.of_nat (List.length A + List.length (B ++ c :: C)))
              (Z.of_nat (List.length A))); [lia|].
  rewrite norm_index_in_range by lia.
  rewrite Nat2Z.id, drop_app_length, first_index_hit by done. lia.
Qed.

Lemma find_miss c A B (start : Z) :
  start = Z.of_nat (List.length A) -> c ∉ B ->
  Py.find c (A ++ B) start = -1.
Proof.
  intros -> Hn. unfold Py.find.
  rewrite length_app.
  destruct (Z.ltb_spec (Z.of_nat (List.length A + List.length B))
              (Z.of_nat (List.length A))); [done|].
  rewrite norm_index_in_range by lia.
  by rewrite Nat2Z.id, drop_app_length, first_index_absent.
Qed.

Lemma slice_mid A B C (lo hi : Z) :
  lo = Z.of_nat (List.length A) ->
  hi = Z.of_nat (List.length A + List.length B) ->
  Py.slice (A ++ B ++ C) lo hi = B.
Proof.
  intros -> ->. unfold Py.slice.
  rewrite !length_app, !norm_index_in_range by lia.
  rewrite Nat2Z.id, drop_app_length.
  replace (Z.to_nat _) with (List.length B) by lia.
  by rewrite take_app_length.
Qed.

Lemma slice_to_prefix A B (hi : Z) :
  hi = Z.of_nat (List.length A) -> Py.slice_to (A ++ B) hi = A.
Proof.
  intros ->. unfold Py.slice_to.
  apply (slice_mid [] A B); simpl; lia.
Qed.

Lemma slice_from_suffix A B (lo : Z) :
  lo = Z.of_nat (List.length A) -> Py.slice_from (A ++ B) lo = B.
Proof.
  intros ->. unfold Py.slice_from.
  rewrite <- (app_nil_r B) at 2.
  rewrite <- (app_nil_r B) at 1.
  apply (slice_mid A B []). { done. }
  rewrite !length_app. simpl. lia.
Qed.

End PyFacts.

(** ** The formatter loop *)

Section Formatter.
Implicit Types (t P l u rest : Py.chars).

Lemma loop_break fuel t :
  Py.find "[" t 0 = -1 \/ Py.find ")" t (Py.find "[" t 0) = -1 ->
  format_links_loop (S fuel) t = Some t.
Proof.
  intros H. cbn [format_links_loop].
  destruct H as [-> | ->]; [done|].
  by rewrite orb_true_r.
Qed.

Lemma loop_rewrite fuel t (start_idx end_idx rb lp : Z) :
  Py.find "[" t 0 = start_idx ->
  Py.find ")" t start_idx = end_idx ->
  Py.find "]" t start_idx = rb ->
  Py.find "(" t start_idx = lp ->
  start_idx <> -1 -> end_idx <> -1 ->
  format_links_loop (S fuel) t =
  format_links_loop fuel
    (Py.slice_to t start_idx
       ++ slack_link (Py.slice t (lp + 1) end_idx)
                     (Py.slice t (start_idx + 1) rb)
       ++ Py.slice_from t (end_idx + 1)).
Proof.
  intros Hs He Hr Hl Hs1 He1. cbn [format_links_loop].
  rewrite Hs, He, Hr, Hl.
  destruct (Z.eqb_spec start_idx (-1)); [done|].
  destruct (Z.eqb_spec end_idx (-1)); [done|].
  done.
Qed.

(** Enough fuel is enough: more of it does not change the result. *)
Lemma format_links_loop_mono n m t r :
  format_links_loop n t = Some r -> (n <= m)%nat ->
  format_links_loop m t = Some r.
Proof.
  revert m t. induction n as [|n IH]; intros m t; [done|].
  intros H Hle. destruct m as [|m]; [lia|].
  cbn [format_links_loop] in *.
  destruct (_ || _); [done|].
  apply IH; [done|lia].
Qed.

(** What the loop returns makes its first test succeed: the result is a
    fixed point. *)
Lemma format_links_loop_fixed n m t r :
  format_links_loop n t = Some r -> format_links_loop (S m) r = Some r.
Proof.
  revert t. induction n as [|n IH]; intros t; [done|].
  cbn [format_links_loop].
  destruct (_ || _) eqn:Hc.
  - intros [= <-]. by rewrite Hc.
  - apply IH.
Qed.

(** One iteration on a text whose first bracket opens a link
    [[l](u)]: the label holds no bracket or parenthesis and the URL no
    ["["] and no [")"]. *)
Lemma rewrite_link fuel P l u rest :
  "["%char ∉ P ->
  "]"%char ∉ l -> "("%char ∉ l -> ")"%char ∉ l ->
  ")"%char ∉ u ->
  format_links_loop (S fuel)
    (P ++ "["%char :: l ++ "]"%char :: "("%char :: u ++ ")"%char :: rest) =
  format_links_loop fuel (P ++ slack_link u l ++ rest).
Proof.
  intros HP Hl1 Hl2 Hl3 Hu.
  set (t := P ++ _).
  assert (Hs : Py.find "[" t 0 = Z.of_nat (List.length P)).
  { apply (find_hit "[" [] P); done. }
  assert (He : Py.find ")" t (Z.of_nat (List.length P)) =
               Z.of_nat (List.length P + List.length ("["%char :: l ++ "]"%char :: "("%char :: u))).
  { subst t.
    replace (P ++ _) with
      (P ++ ("["%char :: l ++ "]"%char :: "("%char :: u) ++ ")"%char :: rest)
      by reassoc.
    apply find_hit; [done|].
    rewrite not_elem_of_cons, not_elem_of_app, !not_elem_of_cons. done. }
  assert (Hr : Py.find "]" t (Z.of_nat (List.length P)) =
               Z.of_nat (List.length P + List.length ("["%char :: l))).
  { subst t.
    replace (P ++ _) with
      (P ++ ("["%char :: l) ++ "]"%char :: "("%char :: u ++ ")"%char :: rest)
      by reassoc.
    apply find_hit; [done|].
    rewrite not_elem_of_cons. done. }
  assert (Hp : Py.find "(" t (Z.of_nat (List.length P)) =
               Z.of_nat (List.length P + List.length ("["%char :: l ++ ["]"%char]))).
  { subst t.
    replace (P ++ _) with
      (P ++ ("["%char :: l ++ ["]"%char]) ++ "("%char :: u ++ ")"%char :: rest)
      by reassoc.
    apply find_hit; [done|].
    rewrite not_elem_of_cons, not_elem_of_app, not_elem_of_cons. 
    split; [done|]. split; [done|]. split; [done|]. apply not_elem_of_nil. }
  rewrite (loop_rewrite fuel t _ _ _ _ Hs He Hr Hp) by (simpl; lia).
  f_equal. f_equal; [|f_equal; [f_equal|]].
  - by apply slice_to_prefix.
  - subst t.
    replace (P ++ _) with
      ((P ++ "["%char :: l ++ ["]"%char; "("%char]) ++ u ++ ")"%char :: rest)
      by reassoc.
    apply slice_mid; rewrite ?length_app; simpl; rewrite ?length_app; simpl; lia.
  - subst t.
    replace (P ++ _) with
      ((P ++ ["["%char]) ++ l ++ "]"%char :: "("%char :: u ++ ")"%char :: rest)
      by reassoc.
    apply slice_mid; rewrite ?length_app; simpl; lia.
  - subst t.
    replace (P ++ _) with
      ((P ++ "["%char :: l ++ "]"%char :: "("%char :: u ++ [")"%char]) ++ rest)
      by reassoc.
    apply slice_from_suffix.
    rewrite ?length_app; simpl; rewrite ?length_app; simpl;
      rewrite ?length_app; simpl; lia.
Qed.

(** The loop on a text with well-formed links behind a prefix without
    ["["]: one iteration per link, and one more to leave. *)
Lemma format_links_loop_markdown segments tail : forall P,
  "["%char ∉ P -> Forall well_formed_segment segments -> "["%char ∉ tail ->
  format_links_loop (S (List.length segments)) (P ++ markdown segments tail)
  = Some (P ++ slack_markup segments tail).
Proof.
  induction segments as [|s segments IH]; intros P HP Hwf Ht.
  - apply loop_break. left.
    rewrite <- (app_nil_l (P ++ _)). apply find_miss; [done|].
    rewrite not_elem_of_app. done.
  - apply Forall_cons in Hwf as [(Hp & (Hl0 & Hl1 & Hl2 & Hl3) & Hu0 & Hu1) Hwf].
    cbn [markdown slack_markup List.length].
    replace (P ++ plain s ++ _) with
      ((P ++ plain s) ++ "["%char :: label s ++ "]"%char :: "("%char :: url s
         ++ ")"%char :: markdown segments tail) by reassoc.
    rewrite rewrite_link; try done.
    2:{ rewrite not_elem_of_app. done. }
    replace ((P ++ plain s) ++ slack_link (url s) (label s) ++ markdown segments tail)
      with ((P ++ plain s ++ slack_link (url s) (label s)) ++ markdown segments tail)
      by reassoc.
    rewrite IH; try done.
    + f_equal. reassoc.
    + absent.
Qed.

Lemma slack_markup_no_bracket segments tail :
  Forall well_formed_segment segments -> "["%char ∉ tail ->
  "["%char ∉ slack_markup segments tail.
Proof.
  induction 1 as [|s segments (Hp & (Hl0 & _) & Hu0 & _) _ IH];
    intros Ht; cbn [slack_markup]; [done|].
  absent. by apply IH.
Qed.

(** One iteration on a runaway text yields a runaway text. *)
Lemma runaway_step fuel t :
  runaway t ->
  exists t', runaway t' /\
             format_links_loop (S fuel) t = format_links_loop fuel t'.
Proof.
  intros (L & M & R & T & -> & HL & (HM1 & HM2 & HM3) & (HR1 & HR2) & HT).
  set (t := L ++ _).
  assert (Hs : Py.find "[" t 0 = Z.of_nat (List.length L)).
  { apply (find_hit "[" [] L); done. }
  assert (He : Py.find ")" t (Z.of_nat (List.length L)) =
               Z.of_nat (List.length L + List.length ("["%char :: M))).
  { subst t.
    replace (L ++ _) with (L ++ ("["%char :: M) ++ ")"%char :: R ++ "]"%char :: T)
      by reassoc.
    apply find_hit; [done|]. rewrite not_elem_of_cons. done. }
  assert (Hr : Py.find "]" t (Z.of_nat (List.length L)) =
               Z.of_nat (List.length L + List.length ("["%char :: M ++ ")"%char :: R))).
  { subst t.
    replace (L ++ _) with (L ++ ("["%char :: M ++ ")"%char :: R) ++ "]"%char :: T)
      by reassoc.
    apply find_hit; [done|].
    rewrite not_elem_of_cons, not_elem_of_app, not_elem_of_cons. done. }
  assert (Hp : Py.find "(" t (Z.of_nat (List.length L)) = -1).
  { subst t. apply find_miss; [done|].
    absent. }
  exists ((L ++ "<"%char :: L) ++ "["%char :: (M ++ "|"%char :: M)
            ++ ")"%char :: (R ++ ">"%char :: R) ++ "]"%char :: T).
  split.
  { exists (L ++ "<"%char :: L), (M ++ "|"%char :: M), (R ++ ">"%char :: R), T.
    split; [reassoc|]. absent. }
  rewrite (loop_rewrite fuel t _ _ _ _ Hs He Hr Hp) by (simpl; lia).
  f_equal.
  assert (H1 : Py.slice_to t (Z.of_nat (List.length L)) = L)
    by by apply slice_to_prefix.
  assert (H2 : Py.slice t (-1 + 1)
                 (Z.of_nat (List.length L + List.length ("["%char :: M)))
               = L ++ "["%char :: M).
  { subst t.
    replace (L ++ _) with
      ([] ++ (L ++ "["%char :: M) ++ ")"%char :: R ++ "]"%char :: T) by reassoc.
    apply slice_mid; rewrite ?length_app; simpl; lia. }
  assert (H3 : Py.slice t (Z.of_nat (List.length L) + 1)
                 (Z.of_nat (List.length L
                            + List.length ("["%char :: M ++ ")"%char :: R)))
               = M ++ ")"%char :: R).
  { subst t.
    replace (L ++ _) with
      ((L ++ ["["%char]) ++ (M ++ ")"%char :: R) ++ "]"%char :: T) by reassoc.
    apply slice_mid; rewrite ?length_app; simpl; rewrite ?length_app; simpl; lia. }
  assert (H4 : Py.slice_from t
                 (Z.of_nat (List.length L + List.length ("["%char :: M)) + 1)
               = R ++ "]"%char :: T).
  { subst t.
    replace (L ++ _) with
      ((L ++ "["%char :: M ++ [")"%char]) ++ R ++ "]"%char :: T) by reassoc.
    apply slice_from_suffix.
    rewrite ?length_app; simpl; rewrite ?length_app; simpl; lia. }
  rewrite H1, H2, H3, H4. unfold slack_link. reassoc.
Qed.

Lemma runaway_never_returns fuel : forall t,
  runaway t -> format_links_loop fuel t = None.
Proof.
  induction fuel as [|fuel IH]; intros t Ht; [done|].
  destruct (runaway_step fuel t Ht) as (t' & Ht' & ->).
  by apply IH.
Qed.

End Formatter.
(** ** What a computation may do to the world *)

#[global] Instance advances_preorder ok : PreOrder (advances ok).
Proof.
  split.
  - intros w. repeat split. exists []. by rewrite app_nil_r.
  - intros w1 w2 w3 (He1 & Hp1 & Hd1 & t1 & Ht1 & Hok1)
                    (He2 & Hp2 & Hd2 & t2 & Ht2 & Hok2).
    repeat split; [congruence..|]. exists (t1 ++ t2).
    rewrite Ht2, Ht1, app_assoc. split; [done|]. by apply Forall_app.
Qed.

Lemma advances_mono (ok ok' : call -> Prop) w w' :
  (forall c, ok c -> ok' c) -> advances ok w w' -> advances ok' w w'.
Proof.
  intros H (? & ? & ? & t & ? & Hok). repeat split; try done.
  exists t. split; [done|]. eapply Forall_impl; eauto.
Qed.

Section Follows.
Context (ok : call -> Prop).
Abbreviation R := (advances ok).

Lemma follows_ret {A} (a : A) : follows R (mret a).
Proof. intros w. reflexivity. Qed.

Lemma follows_raise {A} e : follows R (@raise A e).
Proof. intros w. reflexivity. Qed.

Lemma follows_hang {A} : follows R (@hang A).
Proof. intros w. reflexivity. Qed.

Lemma follows_bind {A B} (m : M A) (k : A -> M B) :
  follows R m -> (forall a, follows R (k a)) -> follows R (m ≫= k).
Proof.
  intros Hm Hk w. unfold mbind, M_bind, bind.
  specialize (Hm w). destruct (m w) as [[a| |] w']; simpl in *; try done.
  etrans; [exact Hm|apply Hk].
Qed.

Lemma follows_try_except {A} (m : M A) h :
  follows R m -> (forall e, follows R (h e)) -> follows R (try_except m h).
Proof.
  intros Hm Hh w. unfold try_except.
  specialize (Hm w). destruct (m w) as [[a| |] w']; simpl in *; try done.
  etrans; [exact Hm|apply Hh].
Qed.

Lemma follows_try_except_slack {A} (m : M A) h :
  follows R m -> (forall e, follows R (h e)) ->
  follows R (try_except_slack m h).
Proof.
  intros Hm Hh w. unfold try_except_slack.
  specialize (Hm w). destruct (m w) as [[a|[]|] w']; simpl in *; try done.
  etrans; [exact Hm|apply Hh].
Qed.

Lemma follows_issue c : ok c -> follows R (issue c).
Proof.
  intros Hc w. repeat split. exists [c]. split; [done|].
  by apply Forall_singleton.
Qed.

Lemma follows_answer {A} (script : world -> list A) rest :
  (forall l w, calls (rest l w) = calls w /\
               processed_events (rest l w) = processed_events w /\
               persisted (rest l w) = persisted w /\
               disk (rest l w) = disk w) ->
  follows R (answer script rest).
Proof.
  intros Hrest w. unfold answer.
  destruct (script w) as [|a l]; simpl; [reflexivity|].
  destruct (Hrest l w) as (Hc & ? & ? & ?). repeat split; try done.
  exists []. by rewrite app_nil_r.
Qed.

Lemma follows_create_thread input_text :
  ok (PostThreadsRuns input_text) -> follows R (create_thread input_text).
Proof.
  intros Hc. unfold create_thread.
  apply follows_bind; [by apply follows_issue|intros _].
  apply follows_bind; [by apply follows_answer|].
  intros r. case_bool_decide; [apply follows_raise|apply follows_ret].
Qed.

Lemma follows_get_thread_messages tid :
  ok (GetMessages tid) -> follows R (get_thread_messages tid).
Proof.
  intros Hc. unfold get_thread_messages.
  apply follows_bind; [by apply follows_issue|intros _].
  apply follows_bind; [by apply follows_answer|].
  intros r. case_bool_decide; [apply follows_raise|apply follows_ret].
Qed.

(** The polling loop issues status requests and sleeps, and consumes
    answers. *)
Lemma poll_trace tid :
  ok (GetRuns tid) -> ok (Sleep 5) ->
  forall script trace,
    exists more, (poll tid script trace).2 = trace ++ more /\ Forall ok more.
Proof.
  intros Hg Hs.
  induction script as [|run_data script IH]; intros trace; simpl.
  - exists [GetRuns tid]. split; [done|]. by apply Forall_singleton.
  - destruct run_data as [|status ?]; simpl.
    { exists [GetRuns tid]. split; [done|]. by apply Forall_singleton. }
    case_bool_decide; simpl.
    { exists [GetRuns tid]. split; [done|]. by apply Forall_singleton. }
    destruct (IH ((trace ++ [GetRuns tid]) ++ [Sleep 5])) as (more & -> & Hm).
    exists (GetRuns tid :: Sleep 5 :: more).
    split; [by rewrite <- !app_assoc|]. by repeat constructor.
Qed.

(** The polling loop issues status requests and sleeps, and consumes
    answers. *)
Lemma follows_wait_for_run_completion tid :
  ok (GetRuns tid) -> ok (Sleep 5) ->
  follows R (wait_for_run_completion tid).
Proof.
  intros Hg Hs w. unfold wait_for_run_completion.
  destruct (poll_trace tid Hg Hs (runs_listed w) (calls w)) as (more & H & Hm).
  destruct (poll tid (runs_listed w) (calls w)) as [[o script] trace].
  simpl in *. repeat split. by exists more.
Qed.

Lemma follows_conversations_replies channel ts :
  ok (ConversationsReplies channel ts) ->
  follows R (conversations_replies channel ts).
Proof.
  intros Hc. unfold conversations_replies.
  apply follows_bind; [by apply follows_issue|intros _].
  apply follows_bind; [by apply follows_answer|].
  intros [?|? ?]; [apply follows_ret|apply follows_raise].
Qed.

Lemma follows_chat_postMessage channel ts t :
  ok (ChatPostMessage channel ts t) ->
  follows R (chat_postMessage channel ts t).
Proof.
  intros Hc. unfold chat_postMessage.
  apply follows_bind; [by apply follows_issue|intros _].
  apply follows_bind; [by apply follows_answer|].
  intros [?|? ?]; [apply follows_ret|apply follows_raise].
Qed.

Lemma follows_get_last_message channel ts :
  ok (ConversationsReplies channel ts) ->
  follows R (get_last_message channel ts).
Proof.
  intros Hc. unfold get_last_message.
  apply follows_try_except_slack; [|intros _; apply follows_ret].
  apply follows_bind; [by apply follows_conversations_replies|].
  intros ?. apply follows_ret.
Qed.

Lemma follows_send_gpt_response admin fuel channel ts t :
  ok (ConversationsReplies channel ts) ->
  (forall t', ok (ChatPostMessage channel ts t')) ->
  follows R (send_gpt_response admin fuel channel ts t).
Proof.
  intros Hc Hp. unfold send_gpt_response.
  destruct (format_links fuel t) as [formatted_text|]; [|apply follows_hang].
  apply follows_bind; [by apply follows_get_last_message|intros last_message].
  case_bool_decide; [|apply follows_ret].
  apply follows_try_except_slack; [|intros error];
    by apply follows_chat_postMessage.
Qed.

Lemma follows_last_message_of messages :
  follows R (last_message_of messages).
Proof.
  unfold last_message_of.
  repeat case_match; apply follows_ret || apply follows_raise.
Qed.

Lemma follows_reply_completed admin fuel req tid :
  ok (GetMessages tid) ->
  ok (ConversationsReplies (channel_id req) (thread_ts req)) ->
  (forall t, ok (ChatPostMessage (channel_id req) (thread_ts req) t)) ->
  follows R (reply_completed admin fuel req tid).
Proof.
  intros Hg Hc Hp. unfold reply_completed.
  apply follows_bind; [by apply follows_get_thread_messages|].
  intros messages.
  apply follows_bind; [apply follows_last_message_of|intros ?].
  apply follows_bind; [by apply follows_send_gpt_response|].
  intros _. apply follows_ret.
Qed.

Lemma follows_reply_failed admin fuel req status :
  ok (ConversationsReplies (channel_id req) (thread_ts req)) ->
  (forall t, ok (ChatPostMessage (channel_id req) (thread_ts req) t)) ->
  follows R (reply_failed admin fuel req status).
Proof.
  intros Hc Hp. unfold reply_failed.
  apply follows_bind; [by apply follows_send_gpt_response|].
  intros _. apply follows_ret.
Qed.

Lemma follows_on_exception admin fuel req e :
  ok (ConversationsReplies (channel_id req) (thread_ts req)) ->
  (forall t, ok (ChatPostMessage (channel_id req) (thread_ts req) t)) ->
  follows R (on_exception admin fuel req e).
Proof.
  intros Hc Hp. unfold on_exception.
  apply follows_bind; [by apply follows_send_gpt_response|].
  intros _. apply follows_ret.
Qed.

Lemma follows_execute admin fuel req :
  (forall c, ok c) -> follows R (execute admin fuel req).
Proof.
  intros Hok. unfold execute.
  apply follows_try_except.
  - apply follows_bind; [by apply follows_create_thread|intros run].
    apply follows_bind; [by apply follows_wait_for_run_completion|].
    intros status. case_bool_decide.
    + by apply follows_reply_completed.
    + by apply follows_reply_failed.
  - intros e. by apply follows_on_exception.
Qed.

End Follows.

(** ** The handler and the set of processed events *)

Lemma intake_world req w : (intake req w).2 = w.
Proof. unfold intake. repeat case_match; done. Qed.

Lemma claim_returns req w : exists w', claim req w = (Ret tt, w').
Proof.
  unfold claim, save_processed_events. simpl.
  destruct (disk w) as [|[] ?]; eauto.
Qed.

Lemma claim_processed_events req w :
  processed_events (claim req w).2 = {[ event_id req ]} ∪ processed_events w.
Proof.
  unfold claim, save_processed_events. simpl.
  destruct (disk w) as [|[] ?]; done.
Qed.

Lemma claim_calls req w :
  calls (claim req w).2 =
  calls w ++ [DumpFile (elements ({[ event_id req ]} ∪ processed_events w))].
Proof.
  unfold claim, save_processed_events. simpl.
  destruct (disk w) as [|[] ?]; done.
Qed.

(** After a rewrite that succeeded, a restart of the process finds the
    claimed event; after one that failed in [json.dump] it finds nothing
    (lines 36-38). *)
Lemma claim_is_reloaded req w :
  disk w = [] \/ (exists d, disk w = Written :: d) ->
  load_processed_events (claim req w).2
  = {[ event_id req ]} ∪ processed_events w.
Proof.
  unfold claim, save_processed_events, load_processed_events. simpl.
  intros [-> | [d ->]]; simpl; apply list_to_set_elements_L.
Qed.

Lemma failed_dump_is_forgotten req w d :
  disk w = DumpFails :: d -> load_processed_events (claim req w).2 = ∅.
Proof.
  unfold claim, save_processed_events, load_processed_events. simpl.
  by intros ->.
Qed.

Lemma execute_processed_events admin fuel req w :
  processed_events (execute admin fuel req w).2 = processed_events w.
Proof. by destruct (follows_execute (fun _ => True) admin fuel req (fun _ => I) w). Qed.

(** The handler leaves the set as it is or adds the identifier of the
    call. *)
Lemma slack_processed_events admin fuel req w :
  processed_events (slack admin fuel req w).2 = processed_events w \/
  processed_events (slack admin fuel req w).2
  = {[ event_id req ]} ∪ processed_events w.
Proof.
  unfold slack, mbind, M_bind, bind.
  pose proof (intake_world req w) as Hw.
  destruct (intake req w) as [[[resp|[]]| |] w0]; simpl in Hw; subst w0;
    try (by left).
  right.
  pose proof (claim_processed_events req w) as Hc.
  destruct (claim req w) as [[[]| |] w1]; simpl in *; try done.
  by rewrite execute_processed_events.
Qed.

(** A step of the server never takes an identifier out of the shared
    set, whichever thread moves. *)
Lemma step_processed_events admin fuel i sys sys' :
  step admin fuel i sys = Some sys' ->
  processed_events (shared sys) ⊆ processed_events (shared sys').
Proof.
  unfold step. destruct (threads sys !! i) as [th|]; simpl; [|done].
  destruct (th_pc th).
  - pose proof (intake_world (th_request th) (shared sys)) as Hw.
    destruct (intake _ _) as [o w]. simpl in Hw. subst w.
    by intros [= <-].
  - destruct (lock_held sys); [done|]. by intros [= <-].
  - generalize (claim_processed_events (th_request th) (shared sys)).
    destruct (claim _ _) as [[[]| |] w]; simpl; intros Hc [= <-]; simpl;
      rewrite Hc; apply union_subseteq_r.
  - generalize (execute_processed_events admin fuel (th_request th) (shared sys)).
    destruct (execute _ _ _ _) as [[| |] w]; simpl; intros He [= <-]; simpl;
      by rewrite He.
  - done.
Qed.

Lemma run_processed_events admin fuel schedule : forall sys sys',
  run admin fuel schedule sys = Some sys' ->
  processed_events (shared sys) ⊆ processed_events (shared sys').
Proof.
  induction schedule as [|i schedule IH]; intros sys sys'; simpl.
  - by intros [= <-].
  - destruct (step admin fuel i sys) as [sys1|] eqn:Hs; simpl; [|done].
    intros H. apply step_processed_events in Hs. apply IH in H.
    by etrans.
Qed.

(** ** Claims about the handler *)

(** C2. An event whose identifier is already in the set of processed events
    (the call being neither a handshake nor a retry) is answered with the
    "Event already processed" acknowledgement, and the world is left exactly
    as it was: no call is issued, the set and the state file are not
    touched. *)
Theorem redelivery_is_acknowledged admin fuel req w :
  type req ≠ Some "url_verification"%string ->
  truthy (retry_num req) = false ->
  event_id req ∈ processed_events w ->
  slack admin fuel req w
  = (Ret (JsonStatus "ok" (Some "Event already processed"%string)), w).
Proof.
  intros Ht Hr He. unfold slack, mbind, M_bind, bind, intake.
  rewrite bool_decide_false by done. rewrite Hr.
  by rewrite bool_decide_true.
Qed.

(** C3. The handler never removes an identifier from the set of processed
    events: whatever the call and whatever the backend, Slack and the disk
    answer, the set after the handler contains the set before; and after
    the claim and step 5, however step 5 ends (run-creation failure,
    non-completed run, malformed answer, escaping exception, or no end at
    all), the identifier of the event is still in the set. *)
Theorem processed_events_only_grow admin fuel req w :
  processed_events w ⊆ processed_events (slack admin fuel req w).2 /\
  event_id req
    ∈ processed_events ((claim req ≫= fun _ => execute admin fuel req) w).2.
Proof.
  split.
  - destruct (slack_processed_events admin fuel req w) as [-> | ->];
      [done|apply union_subseteq_r].
  - unfold mbind, M_bind, bind.
    generalize (claim_processed_events req w).
    destruct (claim req w) as [[[]| |] w1]; simpl; intros Hc;
      rewrite ?execute_processed_events, Hc;
      apply elem_of_union_l, elem_of_singleton_2; reflexivity.
Qed.

(** ** Evaluation of the operations on scripted answers *)

Lemma bind_ret {A B} (m : M A) (k : A -> M B) w a w' :
  m w = (Ret a, w') -> (m ≫= k) w = k a w'.
Proof. intros H. unfold mbind, M_bind, bind. by rewrite H. Qed.

Lemma try_except_bind_ret {A B} (m : M A) (k : A -> M B) h w a w' :
  m w = (Ret a, w') -> try_except (m ≫= k) h w = try_except (k a) h w'.
Proof. intros H. unfold try_except. by rewrite (bind_ret _ _ _ _ _ H). Qed.

Lemma create_thread_returns input_text w r rc :
  runs_created w = r :: rc -> status_code r = 200 ->
  create_thread input_text w
  = (Ret (json r),
     with_runs_created rc (with_calls (calls w ++ [PostThreadsRuns input_text]) w)).
Proof.
  intros Hrc H200. unfold create_thread, mbind, M_bind, bind, issue, answer.
  simpl. rewrite Hrc. rewrite bool_decide_false by (by intros ?). done.
Qed.

Lemma get_thread_messages_returns tid w r ml :
  messages_listed w = r :: ml -> status_code r = 200 ->
  get_thread_messages tid w
  = (Ret (json r),
     with_messages_listed ml (with_calls (calls w ++ [GetMessages tid]) w)).
Proof.
  intros Hml H200.
  unfold get_thread_messages, mbind, M_bind, bind, issue, answer.
  simpl. rewrite Hml. rewrite bool_decide_false by (by intros ?). done.
Qed.

(** A status outside the terminal ones: sleep, then poll again. *)
Lemma poll_again tid status more later trace :
  status ∉ terminal_statuses ->
  poll tid ((status :: more) :: later) trace
  = poll tid later (trace ++ [GetRuns tid; Sleep 5]).
Proof.
  intros Hn. simpl. rewrite bool_decide_false by done.
  by rewrite <- app_assoc.
Qed.

Lemma poll_skips tid pending : forall rest trace,
  Forall pending_answer pending ->
  poll tid (pending ++ rest) trace
  = poll tid rest (trace ++ waits tid (List.length pending)).
Proof.
  induction pending as [|run_data pending IH]; intros rest trace Hp.
  - simpl. by rewrite app_nil_r.
  - apply Forall_cons in Hp as [(status & more & -> & Hn) Hp].
    cbn [app]. rewrite poll_again by done. rewrite IH by done.
    by rewrite <- app_assoc.
Qed.

(** A terminal status: the loop returns it. *)
Lemma poll_returns tid pending status more later trace :
  Forall pending_answer pending -> status ∈ terminal_statuses ->
  poll tid (pending ++ (status :: more) :: later) trace
  = (Ret status, later,
     trace ++ waits tid (List.length pending) ++ [GetRuns tid]).
Proof.
  intros Hp Ht. rewrite poll_skips by done. simpl.
  rewrite bool_decide_true by done. by rewrite <- app_assoc.
Qed.

Lemma wait_for_run_completion_returns tid w pending status more later :
  runs_listed w = pending ++ (status :: more) :: later ->
  Forall pending_answer pending -> status ∈ terminal_statuses ->
  wait_for_run_completion tid w
  = (Ret status,
     with_runs_listed later
       (with_calls (calls w ++ waits tid (List.length pending) ++ [GetRuns tid]) w)).
Proof.
  intros Hrl Hp Ht. unfold wait_for_run_completion.
  by rewrite Hrl, poll_returns.
Qed.

Lemma get_last_message_returns channel ts w a rest :
  replies w = a :: rest ->
  get_last_message channel ts w
  = (Ret (last_seen a),
     with_replies rest
       (with_calls (calls w ++ [ConversationsReplies channel ts]) w)).
Proof.
  intros Hr.
  unfold get_last_message, try_except_slack, conversations_replies,
    mbind, M_bind, bind, issue, answer.
  simpl. rewrite Hr. by destruct a.
Qed.

(** ** Claims about the polling loop *)

(** C5 (as amended). The loop of [wait_for_run_completion] leaves exactly on
    [completed], [failed] and [incomplete]: it returns the status of the
    first poll that observes one of these three, and after a poll that
    observes any other status, whether [queued], [in_progress] or another
    one, it sleeps 5 and polls again. *)
Theorem wait_for_run_completion_leaves_on_three tid w pending status more later :
  runs_listed w = pending ++ (status :: more) :: later ->
  Forall pending_answer pending ->
  let w' := fun trace =>
    with_runs_listed later (with_calls (calls w ++ trace) w) in
  (status ∈ terminal_statuses ->
   wait_for_run_completion tid w
   = (Ret status, w' (waits tid (List.length pending) ++ [GetRuns tid]))) /\
  (status ∉ terminal_statuses ->
   wait_for_run_completion tid w
   = wait_for_run_completion tid
       (w' (waits tid (List.length pending) ++ [GetRuns tid; Sleep 5]))).
Proof.
  intros Hrl Hp w'. split; intros Hs.
  - by apply wait_for_run_completion_returns with more.
  - unfold wait_for_run_completion. rewrite Hrl.
    rewrite poll_skips, poll_again by done.
    subst w'. simpl. by rewrite <- app_assoc.
Qed.

(** ** The path of a fresh event through the handler *)

Lemma intake_passes req w :
  type req ≠ Some "url_verification"%string ->
  truthy (retry_num req) = false ->
  event_id req ∉ processed_events w ->
  intake req w = (Ret (inr tt), w).
Proof.
  intros Ht Hr He. unfold intake.
  rewrite bool_decide_false by done. rewrite Hr.
  by rewrite bool_decide_false.
Qed.

(** The claim rewrites the file and leaves the scripted answers of the
    backend and of Slack alone. *)
Lemma claim_scripts req w :
  runs_created (claim req w).2 = runs_created w /\
  runs_listed (claim req w).2 = runs_listed w /\
  messages_listed (claim req w).2 = messages_listed w /\
  replies (claim req w).2 = replies w /\
  posts (claim req w).2 = posts w.
Proof.
  unfold claim, save_processed_events. simpl.
  destruct (disk w) as [|[] ?]; done.
Qed.

Lemma slack_fresh admin fuel req w :
  type req ≠ Some "url_verification"%string ->
  truthy (retry_num req) = false ->
  event_id req ∉ processed_events w ->
  slack admin fuel req w = execute admin fuel req (claim req w).2.
Proof.
  intros Ht Hr He. unfold slack.
  rewrite (bind_ret _ _ _ _ _ (intake_passes req w Ht Hr He)).
  destruct (claim_returns req w) as [w1 Hc].
  by rewrite (bind_ret _ _ _ _ _ Hc), Hc.
Qed.

(** Once the run is completed the handler fetches the messages, and from
    there on it only talks to Slack, whatever the fetch yields. *)
Lemma reply_completed_calls admin fuel req tid w :
  exists tail,
    calls (try_except (reply_completed admin fuel req tid)
                      (on_exception admin fuel req) w).2
    = calls w ++ GetMessages tid :: tail /\
    Forall slack_call tail.
Proof.
  set (w1 := with_calls (calls w ++ [GetMessages tid]) w).
  set (rest :=
         try_except
           ((response ← answer messages_listed with_messages_listed;
             if bool_decide (status_code response ≠ 200) then
               raise (Exception ("Failed to get thread messages: "
                                   +:+ pretty (status_code response) +:+ ", "
                                   +:+ text response))
             else mret (json response)) ≫= fun messages =>
            last_message ← last_message_of messages;
            send_gpt_response admin fuel (channel_id req) (thread_ts req)
              last_message;;
            mret (JsonStatus "ok" None))
           (on_exception admin fuel req)).
  assert (Heq : try_except (reply_completed admin fuel req tid)
                  (on_exception admin fuel req) w = rest w1) by reflexivity.
  assert (Hf : follows (advances slack_call) rest).
  { apply follows_try_except.
    - apply follows_bind.
      + apply follows_bind; [by apply follows_answer|].
        intros response. case_bool_decide;
          [apply follows_raise|apply follows_ret].
      + intros messages.
        apply follows_bind; [apply follows_last_message_of|intros ?].
        apply follows_bind; [by apply follows_send_gpt_response|].
        intros _. apply follows_ret.
    - intros e. by apply follows_on_exception. }
  destruct (Hf w1) as (_ & _ & _ & tail & Hc & Hok).
  exists tail. rewrite Heq, Hc. subst w1. simpl.
  by rewrite <- app_assoc.
Qed.

Lemma slack_calls_hold_no_fetch tail :
  Forall slack_call tail -> List.filter is_message_fetch tail = [].
Proof.
  induction 1 as [|c tail Hc _ IH]; [done|].
  destruct c; simpl in *; solve [exact IH | contradiction].
Qed.

Lemma slack_calls_hold_no_poll tail :
  Forall slack_call tail -> List.filter is_poll tail = [].
Proof.
  induction 1 as [|c tail Hc _ IH]; [done|].
  destruct c; simpl in *; solve [exact IH | contradiction].
Qed.

(** C6. When the polls of a run observe [queued], [in_progress],
    [in_progress], [completed], the handler issues exactly one message
    fetch, and it issues it after the four polls (so after the third one
    and not before the terminal status was seen): the calls of the handler
    are the rewrite of the state file, the run creation, four status
    requests with a sleep between them, the fetch, and then calls to Slack
    only. *)
Theorem one_fetch_after_the_polls admin fuel req w r rc d1 d2 d3 d4 rl :
  type req ≠ Some "url_verification"%string ->
  truthy (retry_num req) = false ->
  event_id req ∉ processed_events w ->
  runs_created w = r :: rc -> status_code r = 200 ->
  runs_listed w = ("queued"%string :: d1) :: ("in_progress"%string :: d2)
                    :: ("in_progress"%string :: d3)
                    :: ("completed"%string :: d4) :: rl ->
  let tid := thread_id (json r) in
  exists tail,
    let issued :=
      [DumpFile (elements ({[ event_id req ]} ∪ processed_events w));
       PostThreadsRuns (user_message req);
       GetRuns tid; Sleep 5; GetRuns tid; Sleep 5; GetRuns tid; Sleep 5;
       GetRuns tid;
       GetMessages tid] ++ tail in
    calls (slack admin fuel req w).2 = calls w ++ issued /\
    Forall slack_call tail /\
    count is_message_fetch issued = 1%nat /\
    count is_poll issued = 4%nat.
Proof.
  intros Ht Hr He Hrc H200 Hrl tid. subst tid.
  rewrite slack_fresh by done.
  destruct (claim_scripts req w) as (Hc1 & Hc2 & _).
  pose proof (claim_calls req w) as Hcc.
  set (w1 := (claim req w).2) in *.
  unfold execute.
  erewrite try_except_bind_ret
    by (apply create_thread_returns; [by rewrite Hc1|done]).
  erewrite try_except_bind_ret.
  2:{ apply (wait_for_run_completion_returns _ _
               [("queued"%string :: d1); ("in_progress"%string :: d2);
                ("in_progress"%string :: d3)] "completed"%string d4 rl).
      - simpl. by rewrite Hc2.
      - repeat (apply Forall_cons; split); try apply Forall_nil;
          unfold pending_answer; do 2 eexists; (split; [reflexivity|]);
          apply (proj1 (bool_decide_eq_false _)); reflexivity.
      - apply (proj1 (bool_decide_eq_true _)); reflexivity. }
  rewrite bool_decide_true by done.
  match goal with
  | |- context [try_except _ _ ?w3] =>
      destruct (reply_completed_calls admin fuel req (thread_id (json r)) w3)
        as (tail & Hcalls & Hok)
  end.
  exists tail. split; [|split; [|split]].
  - rewrite Hcalls. simpl. rewrite Hcc.
    by rewrite <- !app_assoc.
  - done.
  - unfold count. simpl. by rewrite slack_calls_hold_no_fetch.
  - unfold count. simpl. by rewrite slack_calls_hold_no_poll.
Qed.

(** ** Claims about the notifier *)

(** The send of the formatted text is the first thing that happens when
    the last message seen differs from it. *)
Lemma send_gpt_response_sends admin fuel channel ts t formatted w a rest :
  format_links fuel t = Some formatted ->
  replies w = a :: rest ->
  last_seen a ≠ Some formatted ->
  exists tail,
    calls (send_gpt_response admin fuel channel ts t w).2
    = calls w ++ ConversationsReplies channel ts
        :: ChatPostMessage channel ts formatted :: tail.
Proof.
  intros Hf Hr Hne. unfold send_gpt_response. rewrite Hf.
  rewrite (bind_ret _ _ _ _ _ (get_last_message_returns channel ts w a rest Hr)).
  rewrite bool_decide_true by done.
  set (w1 := with_replies _ _).
  unfold try_except_slack, chat_postMessage, mbind, M_bind, bind, issue, answer.
  simpl. destruct (posts w) as [|[[]|error s] ps]; simpl.
  - exists []. by rewrite <- app_assoc.
  - exists []. by rewrite <- app_assoc.
  - destruct ps as [|[] ?]; simpl; eexists; by rewrite <- !app_assoc.
Qed.

Lemma send_gpt_response_suppresses admin fuel channel ts t formatted w a rest :
  format_links fuel t = Some formatted ->
  replies w = a :: rest ->
  last_seen a = Some formatted ->
  send_gpt_response admin fuel channel ts t w
  = (Ret tt,
     with_replies rest
       (with_calls (calls w ++ [ConversationsReplies channel ts]) w)).
Proof.
  intros Hf Hr He. unfold send_gpt_response. rewrite Hf.
  rewrite (bind_ret _ _ _ _ _ (get_last_message_returns channel ts w a rest Hr)).
  by rewrite bool_decide_false by (by intros ?).
Qed.

(** A failed send is followed by the alert to the administrator; when the
    alert is accepted the notifier returns as it does after a successful
    send. *)
Lemma send_gpt_response_alerts admin fuel channel ts t formatted w a rest
    error s ps :
  format_links fuel t = Some formatted ->
  replies w = a :: rest ->
  last_seen a ≠ Some formatted ->
  posts w = SlackFails error s :: SlackOk tt :: ps ->
  send_gpt_response admin fuel channel ts t w
  = (Ret tt,
     with_posts ps
       (with_replies rest
          (with_calls
             (calls w ++
                [ConversationsReplies channel ts;
                 ChatPostMessage channel ts formatted;
                 ChatPostMessage channel ts
                   ("<@" +:+ admin +:+ "> "
                      +:+ "Error sending message to Slack: " +:+ error)])
             w))).
Proof.
  intros Hf Hr Hne Hp. unfold send_gpt_response. rewrite Hf.
  rewrite (bind_ret _ _ _ _ _ (get_last_message_returns channel ts w a rest Hr)).
  rewrite bool_decide_true by done.
  unfold try_except_slack, chat_postMessage, mbind, M_bind, bind, issue, answer.
  simpl. rewrite Hp. simpl. by rewrite <- !app_assoc.
Qed.

(** C7 (as amended). For a candidate on which [format_links] returns, with
    [formatted] its result and [a] the answer of Slack to the lookup of the
    thread: if the last message of the thread is [formatted], the notifier
    returns after the lookup alone, no message is sent; if the last message
    differs, if the thread has no message, or if the lookup fails with a
    [SlackApiError], the formatted candidate is sent right after the
    lookup. *)
Theorem send_gpt_response_sends_unless_last admin fuel channel ts t formatted
    w a rest :
  format_links fuel t = Some formatted ->
  replies w = a :: rest ->
  let looked_up := calls w ++ [ConversationsReplies channel ts] in
  let sends :=
    exists tail,
      calls (send_gpt_response admin fuel channel ts t w).2
      = looked_up ++ ChatPostMessage channel ts formatted :: tail in
  (forall messages,
      a = SlackOk messages -> last messages = Some formatted ->
      send_gpt_response admin fuel channel ts t w
      = (Ret tt, with_replies rest (with_calls looked_up w))) /\
  (forall messages,
      a = SlackOk messages -> last messages ≠ Some formatted -> sends) /\
  (a = SlackOk [] -> sends) /\
  (forall error s, a = SlackFails error s -> sends).
Proof.
  intros Hf Hr looked_up sends.
  assert (Hs : last_seen a ≠ Some formatted -> sends).
  { intros Hne.
    destruct (send_gpt_response_sends admin fuel channel ts t formatted
                w a rest Hf Hr Hne) as (tail & Hc).
    exists tail. subst looked_up. by rewrite Hc, <- app_assoc. }
  repeat split.
  - intros messages -> Hl. by eapply send_gpt_response_suppresses; eauto.
  - intros messages -> Hl. by apply Hs.
  - intros ->. by apply Hs.
  - intros error s ->. by apply Hs.
Qed.

Lemma last_message_of_returns messages reply parts msgs w :
  data messages = Some (Message (Some (Some reply :: parts)) :: msgs) ->
  last_message_of messages w = (Ret reply, w).
Proof. intros H. unfold last_message_of. by rewrite H. Qed.

(** C4 (as amended). On the completed path, when Slack refuses the reply and
    accepts the alert, the notifier has sent the reply and then a second
    message that tags the administrator and carries the failure
    description, and the failure goes no further: [send_gpt_response]
    returns, and the handler answers [{"status": "ok"}] as it does after a
    successful send. *)
Theorem send_failure_is_alerted_and_absorbed admin fuel req w
    r rc pending d later m ml reply parts msgs formatted a rs error s ps :
  type req ≠ Some "url_verification"%string ->
  truthy (retry_num req) = false ->
  event_id req ∉ processed_events w ->
  runs_created w = r :: rc -> status_code r = 200 ->
  runs_listed w = pending ++ ("completed"%string :: d) :: later ->
  Forall pending_answer pending ->
  messages_listed w = m :: ml -> status_code m = 200 ->
  data (json m) = Some (Message (Some (Some reply :: parts)) :: msgs) ->
  format_links fuel reply = Some formatted ->
  replies w = a :: rs -> last_seen a ≠ Some formatted ->
  posts w = SlackFails error s :: SlackOk tt :: ps ->
  exists w' before,
    slack admin fuel req w = (Ret (JsonStatus "ok" None), w') /\
    calls w' =
    before ++
      [ChatPostMessage (channel_id req) (thread_ts req) formatted;
       ChatPostMessage (channel_id req) (thread_ts req)
         ("<@" +:+ admin +:+ "> "
            +:+ "Error sending message to Slack: " +:+ error)].
Proof.
  intros Ht Hr He Hrc H200 Hrl Hpend Hml Hm200 Hdata Hf Hrep Hseen Hposts.
  rewrite slack_fresh by done.
  destruct (claim_scripts req w) as (Hc1 & Hc2 & Hc3 & Hc4 & Hc5).
  set (w1 := (claim req w).2) in *.
  unfold execute.
  erewrite try_except_bind_ret
    by (apply create_thread_returns; [by rewrite Hc1|done]).
  erewrite try_except_bind_ret.
  2:{ apply (wait_for_run_completion_returns _ _ pending "completed"%string d later).
      - simpl. by rewrite Hc2.
      - done.
      - apply (proj1 (bool_decide_eq_true _)); reflexivity. }
  rewrite bool_decide_true by done.
  unfold reply_completed.
  erewrite try_except_bind_ret
    by (apply get_thread_messages_returns; [simpl; by rewrite Hc3|done]).
  erewrite try_except_bind_ret by (by eapply last_message_of_returns).
  erewrite try_except_bind_ret.
  2:{ eapply send_gpt_response_alerts; [done| | |].
      - simpl. by rewrite Hc4.
      - done.
      - simpl. by rewrite Hc5. }
  eexists _, _. split; [reflexivity|].
  simpl. exact (app_assoc _ [_] [_; _]).
Qed.

(** ** Payloads without an identifier *)

(** Step 5 begins with the run creation. *)
Lemma execute_creates_run admin fuel req w :
  exists tail,
    calls (execute admin fuel req w).2
    = calls w ++ PostThreadsRuns (user_message req) :: tail.
Proof.
  set (w1 := with_calls (calls w ++ [PostThreadsRuns (user_message req)]) w).
  set (rest :=
         try_except
           ((response ← answer runs_created with_runs_created;
             if bool_decide (status_code response ≠ 200) then
               raise (Exception ("Failed to create thread: "
                                   +:+ pretty (status_code response) +:+ ", "
                                   +:+ text response))
             else mret (json response)) ≫= fun run =>
            status ← wait_for_run_completion (thread_id run);
            if bool_decide (status = "completed"%string)
            then reply_completed admin fuel req (thread_id run)
            else reply_failed admin fuel req status)
           (on_exception admin fuel req)).
  assert (Heq : execute admin fuel req w = rest w1) by reflexivity.
  assert (Hf : follows (advances (fun _ => True)) rest).
  { apply follows_try_except.
    - apply follows_bind.
      + apply follows_bind; [by apply follows_answer|].
        intros response. case_bool_decide;
          [apply follows_raise|apply follows_ret].
      + intros run.
        apply follows_bind; [by apply follows_wait_for_run_completion|].
        intros status. case_bool_decide.
        * by apply follows_reply_completed.
        * by apply follows_reply_failed.
    - intros e. by apply follows_on_exception. }
  destruct (Hf w1) as (_ & _ & _ & tail & Hc & _).
  exists tail. rewrite Heq, Hc. subst w1. simpl. by rewrite <- app_assoc.
Qed.

(** C10. A call that is neither a handshake nor a retry and whose payload
    has no [event_id] is deduplicated under the key [None]: while [None] is
    not in the set, the call is processed like any fresh event (the state
    file is rewritten and the run creation is issued) and [None] is added to
    the set; from then on, in every world whose set contains that one --
    which by monotonicity is every later one -- a call without [event_id] is
    acknowledged as already processed and leaves the world untouched. *)
Theorem missing_event_id_is_keyed_by_None admin fuel req w :
  type req ≠ Some "url_verification"%string ->
  truthy (retry_num req) = false ->
  event_id req = None ->
  None ∉ processed_events w ->
  let w1 := (slack admin fuel req w).2 in
  (exists tail,
      calls w1 = calls w
        ++ DumpFile (elements ({[ None ]} ∪ processed_events w))
        :: PostThreadsRuns (user_message req) :: tail) /\
  processed_events w1 = {[ None ]} ∪ processed_events w /\
  forall fuel' req' w2,
    processed_events w1 ⊆ processed_events w2 ->
    type req' ≠ Some "url_verification"%string ->
    truthy (retry_num req') = false ->
    event_id req' = None ->
    slack admin fuel' req' w2
    = (Ret (JsonStatus "ok" (Some "Event already processed"%string)), w2).
Proof.
  intros Ht Hr He Hn w1.
  assert (Hw1 : w1 = (execute admin fuel req (claim req w).2).2).
  { subst w1. rewrite slack_fresh; [done..|]. by rewrite He. }
  assert (Hpe : processed_events w1 = {[ None ]} ∪ processed_events w).
  { rewrite Hw1, execute_processed_events, claim_processed_events.
    by rewrite He. }
  split; [|split; [done|]].
  - destruct (execute_creates_run admin fuel req (claim req w).2) as (tail & Hc).
    exists tail. rewrite Hw1, Hc, claim_calls, He.
    by rewrite <- app_assoc.
  - intros fuel' req' w2 Hsub Ht' Hr' He'.
    unfold slack, mbind, M_bind, bind, intake.
    rewrite bool_decide_false by done. rewrite Hr'.
    rewrite bool_decide_true; [done|].
    rewrite He'. apply Hsub. rewrite Hpe.
    apply elem_of_union_l, elem_of_singleton_2. reflexivity.
Qed.

(** ** Claims about the formatter *)

(** C8. On a text whose links are well formed, [format_links] returns, its
    result holds no ["["] (one pass leaves nothing to rewrite), and
    formatting the result again gives the result: with enough fuel for
    the first pass, [format_links (format_links t) = format_links t]. *)
Theorem format_links_idempotent (t : string) :
  well_formed (list_ascii_of_string t) ->
  exists n r,
    ("["%char ∉ list_ascii_of_string r) /\
    forall fuel, (n <= fuel)%nat ->
      format_links fuel t = Some r /\
      format_links fuel r = Some r /\
      format_links fuel t ≫= format_links fuel = format_links fuel t.
Proof.
  intros (segments & tail & Ht & Hwf & Htail).
  exists (S (List.length segments)),
         (string_of_list_ascii (slack_markup segments tail)).
  rewrite list_ascii_of_string_of_list_ascii.
  split; [by apply slack_markup_no_bracket|].
  intros fuel Hfuel.
  assert (H1 : format_links fuel t
               = Some (string_of_list_ascii (slack_markup segments tail))).
  { unfold format_links. rewrite Ht.
    rewrite (format_links_loop_mono (S (List.length segments)) fuel _
               (slack_markup segments tail)); [done| |done].
    apply (format_links_loop_markdown segments tail []); [|done..].
    apply not_elem_of_nil. }
  assert (H2 : format_links fuel
                 (string_of_list_ascii (slack_markup segments tail))
               = Some (string_of_list_ascii (slack_markup segments tail))).
  { unfold format_links. rewrite list_ascii_of_string_of_list_ascii.
    destruct fuel as [|fuel]; [lia|].
    rewrite loop_break; [done|]. left.
    apply (find_miss "[" [] (slack_markup segments tail)); [done|].
    by apply slack_markup_no_bracket. }
  split; [done|]. split; [done|].
  rewrite H1. simpl. by rewrite H2.
Qed.

(** C9 (the code departs from it). On ["[a)b]"] the loop of [format_links]
    never reaches its [break]: whatever the number of iterations allowed,
    no result is returned. *)
Theorem format_links_never_returns_on_stray_parenthesis :
  forall fuel, format_links fuel "[a)b]" = None.
Proof.
  intros fuel. unfold format_links.
  rewrite runaway_never_returns; [done|].
  exists [], ["a"%char], ["b"%char], [].
  split; [reflexivity|]. absent.
Qed.

(** ** Concurrent deliveries of one event *)

Lemma step_passes_the_check admin fuel i sys req :
  threads sys !! i = Some (Thread req AtIntake) ->
  type req ≠ Some "url_verification"%string ->
  truthy (retry_num req) = false ->
  event_id req ∉ processed_events (shared sys) ->
  step admin fuel i sys
  = Some (System (shared sys) (lock_held sys) (at_pc i AtLock (threads sys))).
Proof.
  intros Hth Ht Hr He. unfold step. rewrite Hth. simpl.
  by rewrite intake_passes.
Qed.

(** Both deliveries of a fresh event pass the dedup check when the second
    one is checked before the first one has claimed the event. *)
Lemma concurrent_deliveries_both_pass_the_check admin fuel req w :
  type req ≠ Some "url_verification"%string ->
  truthy (retry_num req) = false ->
  event_id req ∉ processed_events w ->
  run admin fuel [0; 1]%nat (deliver [req; req] w)
  = Some (System w false [Thread req AtLock; Thread req AtLock]).
Proof.
  intros Ht Hr He. unfold deliver. cbn [run fmap list_fmap].
  rewrite (step_passes_the_check admin fuel 0 _ req) by done.
  cbn [mbind option_bind shared lock_held threads].
  by rewrite (step_passes_the_check admin fuel 1 _ req).
Qed.


Lemma count_app p (t1 t2 : list call) :
  count p (t1 ++ t2) = (count p t1 + count p t2)%nat.
Proof. unfold count. by rewrite List.filter_app, length_app. Qed.

Lemma run_app admin fuel s1 : forall s2 sys,
  run admin fuel (s1 ++ s2) sys
  = run admin fuel s1 sys ≫= run admin fuel s2.
Proof.
  induction s1 as [|i s1 IH]; intros s2 sys; [done|].
  cbn [app run]. destruct (step admin fuel i sys) as [sys'|]; [|done].
  apply IH.
Qed.

Lemma step_takes_the_lock admin fuel i sys req :
  threads sys !! i = Some (Thread req AtLock) -> lock_held sys = false ->
  step admin fuel i sys
  = Some (System (shared sys) true (at_pc i AtClaim (threads sys))).
Proof. intros Hth Hl. unfold step. rewrite Hth. simpl. by rewrite Hl. Qed.

Lemma step_claims admin fuel i sys req w' :
  threads sys !! i = Some (Thread req AtClaim) ->
  claim req (shared sys) = (Ret tt, w') ->
  step admin fuel i sys
  = Some (System w' true (at_pc i AtExecute (threads sys))).
Proof. intros Hth Hc. unfold step. rewrite Hth. simpl. by rewrite Hc. Qed.

Lemma step_executes admin fuel i sys req o w' :
  threads sys !! i = Some (Thread req AtExecute) ->
  execute admin fuel req (shared sys) = (o, w') ->
  step admin fuel i sys
  = Some (System w' (match o with Hang => true | _ => false end)
            (at_pc i (Finished o) (threads sys))).
Proof.
  intros Hth He. unfold step. rewrite Hth. simpl. rewrite He. by destruct o.
Qed.

(** The same for every fresh event: when the second delivery is checked
    before the first one has claimed the event, and step 5 of the first
    comes to an end, the run-creation step is executed by both. *)
Lemma concurrent_deliveries_run_step_5_twice admin fuel req w :
  type req ≠ Some "url_verification"%string ->
  truthy (retry_num req) = false ->
  event_id req ∉ processed_events w ->
  (execute admin fuel req (claim req w).2).1 ≠ Hang ->
  exists sys,
    run admin fuel [0; 1; 0; 0; 0; 1; 1; 1]%nat (deliver [req; req] w)
    = Some sys /\
    (count is_run_creation (calls w) + 2
     <= count is_run_creation (calls (shared sys)))%nat.
Proof.
  intros Ht Hr He Hend.
  destruct (claim_returns req w) as [w1 Hc1].
  pose proof (claim_calls req w) as Hcalls1.
  destruct (execute_creates_run admin fuel req w1) as (tail1 & Hcalls2).
  rewrite Hc1 in Hend, Hcalls1. simpl in Hend, Hcalls1.
  destruct (execute admin fuel req w1) as [o w2] eqn:He1.
  destruct (claim_returns req w2) as [w3 Hc3].
  pose proof (claim_calls req w2) as Hcalls3.
  destruct (execute_creates_run admin fuel req w3) as (tail2 & Hcalls4).
  rewrite Hc3 in Hcalls3. simpl in Hcalls2, Hcalls3.
  destruct (execute admin fuel req w3) as [o' w4] eqn:He2.
  simpl in Hcalls4.
  exists (System w4 (match o' with Hang => true | _ => false end)
            [Thread req (Finished o); Thread req (Finished o')]).
  split.
  - change [0; 1; 0; 0; 0; 1; 1; 1]%nat
      with ([0; 1] ++ [0; 0; 0; 1; 1; 1])%nat.
    rewrite run_app, concurrent_deliveries_both_pass_the_check by done.
    cbn [mbind option_bind run].
    rewrite (step_takes_the_lock admin fuel 0 _ req) by done.
    cbn [mbind option_bind shared threads].
    rewrite (step_claims admin fuel 0 _ req w1) by done.
    cbn [mbind option_bind shared threads].
    rewrite (step_executes admin fuel 0 _ req o w2) by done.
    replace (match o with Hang => true | _ => false end) with false
      by (by destruct o).
    cbn [mbind option_bind shared threads].
    rewrite (step_takes_the_lock admin fuel 1 _ req) by done.
    cbn [mbind option_bind shared threads].
    rewrite (step_claims admin fuel 1 _ req w3) by done.
    cbn [mbind option_bind shared threads].
    by rewrite (step_executes admin fuel 1 _ req o' w4).
  - cbn [shared]. rewrite Hcalls4, Hcalls3, Hcalls2, Hcalls1.
    rewrite !count_app. unfold count. simpl. lia.
Qed.

(** C1 (the code departs from it). Two deliveries of event [Ev1], the
    second of which passes the dedup check before the first has taken the
    lock: both run step 5, the run-creation step is executed twice and
    both calls are answered [{"status": "ok"}]; the state file holds [Ev1]
    once. *)
Theorem concurrent_deliveries_create_two_runs :
  exists sys,
    run Scenario.admin 5 [0; 1; 0; 0; 0; 1; 1; 1]%nat
        (deliver [Scenario.delivery; Scenario.delivery] Scenario.two_runs)
    = Some sys /\
    count is_run_creation (calls (shared sys)) = 2%nat /\
    persisted (shared sys) = Some [Some "Ev1"%string] /\
    th_pc <$> threads sys
    = [Finished (Ret (JsonStatus "ok" None));
       Finished (Ret (JsonStatus "ok" None))].
Proof.
  eexists. split; [vm_compute; reflexivity|].
  vm_compute. done.
Qed.

(** ** The statements at concrete calls *)

Section Instances.
Import Scenario.
Open Scope string_scope.

(** C2 at a redelivery of [Ev1]. *)
Lemma redelivery_is_acknowledged_witness :
  slack admin 5 delivery seen
  = (Ret (JsonStatus "ok" (Some "Event already processed")), seen).
Proof.
  apply (redelivery_is_acknowledged admin 5 delivery seen).
  - discriminate.
  - reflexivity.
  - apply (bool_decide_unpack _). vm_compute. exact I.
Defined.

(** C5 (as amended) at the cancelled run: the loop goes past [cancelled]
    and returns at [completed]. *)
Lemma wait_for_run_completion_leaves_on_three_witness :
  wait_for_run_completion (Some "thread_a") cancelled_run
  = (Ret "completed",
     with_runs_listed []
       (with_calls
          (calls cancelled_run
             ++ waits (Some "thread_a") 1 ++ [GetRuns (Some "thread_a")])%list
          cancelled_run)).
Proof.
  apply (wait_for_run_completion_leaves_on_three (Some "thread_a")
           cancelled_run [["cancelled"]] "completed" [] []).
  - reflexivity.
  - apply Forall_cons. split; [|constructor].
    exists "cancelled", []. split; [reflexivity|].
    apply (bool_decide_unpack _). vm_compute. exact I.
  - apply (bool_decide_unpack _). vm_compute. exact I.
Defined.

(** C5 as stated fails: [cancelled] is neither [queued] nor
    [in_progress], yet the loop does not return on observing it; it
    sleeps, polls again and returns the later [completed]. With no later
    answer it is still waiting. *)
Lemma cancelled_is_not_terminal :
  ("cancelled" ∉ ["queued"; "in_progress"]) /\
  (wait_for_run_completion (Some "thread_a") cancelled_run).1
  = Ret "completed" /\
  calls (wait_for_run_completion (Some "thread_a") cancelled_run).2
  = [GetRuns (Some "thread_a"); Sleep 5; GetRuns (Some "thread_a")] /\
  poll (Some "thread_a") [["cancelled"]] []
  = (Hang, [], [GetRuns (Some "thread_a"); Sleep 5; GetRuns (Some "thread_a")]).
Proof.
  split; [|split; [|split]]; try reflexivity.
  apply (bool_decide_unpack _). vm_compute. exact I.
Qed.

(** C6 at the slow run. *)
Lemma one_fetch_after_the_polls_witness :
  exists tail,
    let tid := Some "thread_a" in
    let issued :=
      ([DumpFile (elements ({[ Some "Ev1" ]} ∪ (∅ : gset ident)));
       PostThreadsRuns "hello";
       GetRuns tid; Sleep 5; GetRuns tid; Sleep 5; GetRuns tid; Sleep 5;
       GetRuns tid;
       GetMessages tid] ++ tail)%list in
    calls (slack admin 5 delivery slow_run).2 = ([] ++ issued)%list /\
    Forall slack_call tail /\
    count is_message_fetch issued = 1%nat /\
    count is_poll issued = 4%nat.
Proof.
  apply (one_fetch_after_the_polls admin 5 delivery slow_run
           (created "thread_a") [] [] [] [] [] []).
  - discriminate.
  - reflexivity.
  - apply (bool_decide_unpack _). vm_compute. exact I.
  - reflexivity.
  - reflexivity.
  - reflexivity.
Defined.

(** C7 at a thread that already ends with the formatted reply. *)
Lemma send_gpt_response_sends_unless_last_witness :
  send_gpt_response admin 5 (Some "C1") (Some "1700.01")
    "see [docs](http://x/y) now" already_posted
  = (Ret tt,
     with_replies []
       (with_calls
          (calls already_posted
             ++ [ConversationsReplies (Some "C1") (Some "1700.01")])%list
          already_posted)).
Proof.
  apply (proj1 (send_gpt_response_sends_unless_last admin 5 (Some "C1")
                  (Some "1700.01") "see [docs](http://x/y) now"
                  "see <http://x/y|docs> now" already_posted
                  (SlackOk ["hello"; "see <http://x/y|docs> now"]) []
                  eq_refl eq_refl)
           ["hello"; "see <http://x/y|docs> now"]); reflexivity.
Defined.

(** C7 as stated fails: the candidate ["[a)b]"] differs from the last
    message of the thread, and yet it is not sent. [format_links] does not
    return on it, so the notifier stays in line 131: it issues no lookup
    and no message, and it does not return either. *)
Lemma runaway_candidate_is_not_sent :
  last_seen (SlackOk ["hello"]) = Some "hello" /\
  replies open_thread = [SlackOk ["hello"]] /\
  forall fuel,
    format_links fuel "[a)b]" ≠ Some "hello" /\
    send_gpt_response admin fuel (Some "C1") (Some "1700.01") "[a)b]"
      open_thread
    = (Hang, open_thread).
Proof.
  split; [reflexivity|]. split; [reflexivity|]. intros fuel.
  assert (Hf : format_links fuel "[a)b]" = None).
  { unfold format_links. rewrite runaway_never_returns; [done|].
    exists [], ["a"%char], ["b"%char], [].
    split; [reflexivity|]. absent. }
  unfold send_gpt_response. rewrite Hf. split; [discriminate|reflexivity].
Qed.

(** C4 as stated fails: Slack refuses the reply, and the handler still
    answers [{"status": "ok"}], after the reply and the alert. *)
Lemma refused_send_is_answered_ok :
  head (posts refused_send)
  = Some (SlackFails "channel_not_found"
            "The request to the Slack API failed.") /\
  (slack admin 5 delivery refused_send).1 = Ret (JsonStatus "ok" None) /\
  calls (slack admin 5 delivery refused_send).2
  = [DumpFile [Some "Ev1"]; PostThreadsRuns "hello";
     GetRuns (Some "thread_a"); GetMessages (Some "thread_a");
     ConversationsReplies (Some "C1") (Some "1700.01");
     ChatPostMessage (Some "C1") (Some "1700.01")
       "see <http://x/y|docs> now";
     ChatPostMessage (Some "C1") (Some "1700.01")
       "<@U0ADMIN> Error sending message to Slack: channel_not_found"].
Proof. split; [|split]; vm_compute; reflexivity. Qed.

(** C4 (as amended) at the refused send. *)
Lemma send_failure_is_alerted_and_absorbed_witness :
  exists w' before,
    slack admin 5 delivery refused_send = (Ret (JsonStatus "ok" None), w') /\
    calls w' =
    (before ++
      [ChatPostMessage (Some "C1") (Some "1700.01")
         "see <http://x/y|docs> now";
       ChatPostMessage (Some "C1") (Some "1700.01")
         ("<@" +:+ admin +:+ "> "
            +:+ "Error sending message to Slack: " +:+ "channel_not_found")])%list.
Proof.
  apply (send_failure_is_alerted_and_absorbed admin 5 delivery refused_send
           (created "thread_a") [] [] [] []
           (answered "see [docs](http://x/y) now") []
           "see [docs](http://x/y) now" [] []
           "see <http://x/y|docs> now" (SlackOk ["hello"]) []
           "channel_not_found" "The request to the Slack API failed." []).
  - discriminate.
  - reflexivity.
  - apply (bool_decide_unpack _). vm_compute. exact I.
  - reflexivity.
  - reflexivity.
  - reflexivity.
  - constructor.
  - reflexivity.
  - reflexivity.
  - reflexivity.
  - reflexivity.
  - reflexivity.
  - discriminate.
  - reflexivity.
Defined.

(** C8 at the example of the specification. *)
Lemma format_links_idempotent_witness :
  exists n r,
    ("["%char ∉ list_ascii_of_string r) /\
    forall fuel, (n <= fuel)%nat ->
      format_links fuel "see [docs](http://x/y) now" = Some r /\
      format_links fuel r = Some r /\
      format_links fuel "see [docs](http://x/y) now" ≫= format_links fuel
      = format_links fuel "see [docs](http://x/y) now".
Proof.
  apply (format_links_idempotent "see [docs](http://x/y) now").
  exists [Segment (list_ascii_of_string "see ")
                  (list_ascii_of_string "docs")
                  (list_ascii_of_string "http://x/y")],
         (list_ascii_of_string " now").
  split; [reflexivity|]. split.
  - apply Forall_cons. split; [|constructor].
    unfold well_formed_segment. simpl.
    repeat split; apply (bool_decide_unpack _); vm_compute; exact I.
  - apply (bool_decide_unpack _). vm_compute. exact I.
Defined.

(** C10 at a first delivery without [event_id]. *)
Lemma missing_event_id_is_keyed_by_None_witness :
  let w1 := (slack admin 5 anonymous_delivery two_runs).2 in
  (exists tail,
      calls w1 = (calls two_runs
        ++ DumpFile (elements ({[ None ]} ∪ processed_events two_runs))
        :: PostThreadsRuns (user_message anonymous_delivery) :: tail)%list) /\
  processed_events w1 = {[ None ]} ∪ processed_events two_runs /\
  forall fuel' req' w2,
    processed_events w1 ⊆ processed_events w2 ->
    type req' ≠ Some "url_verification" ->
    truthy (retry_num req') = false ->
    event_id req' = None ->
    slack admin fuel' req' w2
    = (Ret (JsonStatus "ok" (Some "Event already processed")), w2).
Proof.
  apply (missing_event_id_is_keyed_by_None admin 5 anonymous_delivery two_runs).
  - discriminate.
  - reflexivity.
  - reflexivity.
  - apply (bool_decide_unpack _). vm_compute. exact I.
Defined.

End Instances.

(** * Further properties of the code *)

(** ** The formatter on other texts *)

(** X1. On a text with well-formed links, [format_links] returns the text
    in which every [[label](url)] is replaced by [<url|label>] and nothing
    else is changed; one iteration per link and one more are enough. *)
Theorem format_links_renders_links segments tail fuel :
  Forall well_formed_segment segments ->
  "["%char ∉ tail ->
  (List.length segments < fuel)%nat ->
  format_links fuel (string_of_list_ascii (markdown segments tail))
  = Some (string_of_list_ascii (slack_markup segments tail)).
Proof.
  intros Hwf Ht Hfuel. unfold format_links.
  rewrite list_ascii_of_string_of_list_ascii.
  rewrite (format_links_loop_mono (S (List.length segments)) fuel _
             (slack_markup segments tail)); [done| |lia].
  apply (format_links_loop_markdown segments tail []); [|done..].
  apply not_elem_of_nil.
Qed.

(** X2. A text without ["["], or without [")"] behind its first ["["], is
    returned as it is by the first iteration. *)
Theorem format_links_leaves_text_without_link fuel (t : string) :
  ("["%char ∉ list_ascii_of_string t) \/
  (exists P Q, list_ascii_of_string t = P ++ "["%char :: Q /\
               ("["%char ∉ P) /\ (")"%char ∉ Q)) ->
  format_links (S fuel) t = Some t.
Proof.
  intros H. unfold format_links.
  rewrite loop_break; [simpl; by rewrite string_of_list_ascii_of_string|].
  destruct H as [H | (P & Q & -> & HP & HQ)].
  - left. by apply (find_miss "[" [] (list_ascii_of_string t)).
  - right.
    assert (Hs : Py.find "[" (P ++ "["%char :: Q) 0 = Z.of_nat (List.length P))
      by (apply (find_hit "[" [] P Q); done).
    rewrite Hs. apply (find_miss ")" P ("["%char :: Q)); [done|]. absent.
Qed.

(** X3. Whatever the text, a result of [format_links] is left unchanged by
    [format_links]: the loop returns only a text on which its first test
    breaks. *)
Theorem format_links_result_is_fixed_point n m (t r : string) :
  format_links n t = Some r -> format_links (S m) r = Some r.
Proof.
  unfold format_links. intros H.
  destruct (format_links_loop n (list_ascii_of_string t)) as [r'|] eqn:Hl;
    [|done].
  injection H as <-. rewrite list_ascii_of_string_of_list_ascii.
  by rewrite (format_links_loop_fixed n m _ _ Hl).
Qed.

(** One iteration on a text whose first bracket pair encloses the
    parenthesis pair, [[M(U)R]]: the label runs to the first ["]"], which
    lies behind the matched [")"]. *)
Lemma rewrite_enclosing_brackets fuel P M U R T :
  "["%char ∉ P ->
  "]"%char ∉ M -> "("%char ∉ M -> ")"%char ∉ M ->
  "]"%char ∉ U -> ")"%char ∉ U ->
  "]"%char ∉ R ->
  format_links_loop (S fuel)
    (P ++ "["%char :: M ++ "("%char :: U ++ ")"%char :: R ++ "]"%char :: T) =
  format_links_loop fuel
    (P ++ slack_link U (M ++ "("%char :: U ++ ")"%char :: R)
       ++ R ++ "]"%char :: T).
Proof.
  intros HP HM1 HM2 HM3 HU1 HU2 HR.
  set (t := P ++ _).
  assert (Hs : Py.find "[" t 0 = Z.of_nat (List.length P)).
  { apply (find_hit "[" [] P); done. }
  assert (He : Py.find ")" t (Z.of_nat (List.length P)) =
               Z.of_nat (List.length P
                         + List.length ("["%char :: M ++ "("%char :: U))).
  { subst t.
    replace (P ++ _) with
      (P ++ ("["%char :: M ++ "("%char :: U) ++ ")"%char :: R ++ "]"%char :: T)
      by reassoc.
    apply find_hit; [done|]. absent. }
  assert (Hr : Py.find "]" t (Z.of_nat (List.length P)) =
               Z.of_nat (List.length P
                         + List.length ("["%char :: M ++ "("%char :: U
                                          ++ ")"%char :: R))).
  { subst t.
    replace (P ++ _) with
      (P ++ ("["%char :: M ++ "("%char :: U ++ ")"%char :: R) ++ "]"%char :: T)
      by reassoc.
    apply find_hit; [done|]. absent. }
  assert (Hp : Py.find "(" t (Z.of_nat (List.length P)) =
               Z.of_nat (List.length P + List.length ("["%char :: M))).
  { subst t.
    replace (P ++ _) with
      (P ++ ("["%char :: M) ++ "("%char :: U ++ ")"%char :: R ++ "]"%char :: T)
      by reassoc.
    apply find_hit; [done|]. absent. }
  rewrite (loop_rewrite fuel t _ _ _ _ Hs He Hr Hp) by (simpl; lia).
  f_equal. f_equal; [|f_equal; [f_equal|]].
  - by apply slice_to_prefix.
  - subst t.
    replace (P ++ _) with
      ((P ++ "["%char :: M ++ ["("%char]) ++ U ++ ")"%char :: R ++ "]"%char :: T)
      by reassoc.
    apply slice_mid; rewrite ?length_app; simpl; rewrite ?length_app; simpl; lia.
  - subst t.
    replace (P ++ _) with
      ((P ++ ["["%char]) ++ (M ++ "("%char :: U ++ ")"%char :: R) ++ "]"%char :: T)
      by reassoc.
    apply slice_mid; rewrite ?length_app; simpl; rewrite ?length_app; simpl;
      rewrite ?length_app; simpl; lia.
  - subst t.
    replace (P ++ _) with
      ((P ++ "["%char :: M ++ "("%char :: U ++ [")"%char]) ++ R ++ "]"%char :: T)
      by reassoc.
    apply slice_from_suffix.
    rewrite ?length_app; simpl; rewrite ?length_app; simpl;
      rewrite ?length_app; simpl; lia.
Qed.

(** X4. Brackets around a parenthesised URL, [[M(U)R]]: the label is taken
    up to the first ["]"] although it lies behind the matched [")"], so the
    link becomes [<U|M(U)R>] and the text [R]] between the [")"] and the
    ["]"] stays behind it, a second time. *)
Theorem format_links_label_runs_to_first_closing_bracket
    fuel (P M U R T : Py.chars) :
  ("["%char ∉ P ++ M ++ U ++ R ++ T) ->
  ("]"%char ∉ M ++ U ++ R) ->
  ("("%char ∉ M) -> (")"%char ∉ M ++ U) ->
  format_links (S (S fuel))
    (string_of_list_ascii
       (P ++ "["%char :: M ++ "("%char :: U ++ ")"%char :: R ++ "]"%char :: T))
  = Some (string_of_list_ascii
            (P ++ slack_link U (M ++ "("%char :: U ++ ")"%char :: R)
               ++ R ++ "]"%char :: T)).
Proof.
  rewrite !not_elem_of_app.
  intros (HP & HM & HU & HR & HT) (HM1 & HU1 & HR1) HM2 (HM3 & HU3).
  unfold format_links. rewrite list_ascii_of_string_of_list_ascii.
  rewrite rewrite_enclosing_brackets by done.
  rewrite loop_break; [done|]. left.
  apply (find_miss "[" [] _ 0); [done|]. absent.
Qed.

(** X5. The loop never leaves on any text of the runaway shape
    [L[M)R]T]: no ["["] in [L], no [")"], ["]"], ["("] in [M], no ["]"],
    ["("] in [R], no ["("] in [T]. *)
Theorem format_links_never_returns_on_runaway (t : string) fuel :
  runaway (list_ascii_of_string t) -> format_links fuel t = None.
Proof.
  intros H. unfold format_links. by rewrite runaway_never_returns.
Qed.

Section FormatterInstances.
Open Scope string_scope.

Lemma format_links_renders_links_witness :
  format_links 2 "see [docs](http://x/y) now"
  = Some "see <http://x/y|docs> now".
Proof.
  apply (format_links_renders_links
           [Segment (list_ascii_of_string "see ")
                    (list_ascii_of_string "docs")
                    (list_ascii_of_string "http://x/y")]
           (list_ascii_of_string " now") 2).
  - apply Forall_cons. split; [|constructor].
    unfold well_formed_segment. simpl.
    repeat split; apply (bool_decide_unpack _); vm_compute; exact I.
  - apply (bool_decide_unpack _). vm_compute. exact I.
  - simpl. lia.
Defined.

Lemma format_links_leaves_text_without_link_witness :
  format_links 1 "a [x] b" = Some "a [x] b".
Proof.
  apply (format_links_leaves_text_without_link 0 "a [x] b").
  right. exists (list_ascii_of_string "a "), (list_ascii_of_string "x] b").
  split; [reflexivity|].
  split; apply (bool_decide_unpack _); vm_compute; exact I.
Defined.

Lemma format_links_result_is_fixed_point_witness :
  format_links 1 "<[|>" = Some "<[|>".
Proof.
  apply (format_links_result_is_fixed_point 2 0 "[)" "<[|>").
  reflexivity.
Defined.

Lemma format_links_label_runs_to_first_closing_bracket_witness :
  format_links 2 "see [docs (http://x/y) here] now"
  = Some "see <http://x/y|docs (http://x/y) here> here] now".
Proof.
  apply (format_links_label_runs_to_first_closing_bracket 0
           (list_ascii_of_string "see ") (list_ascii_of_string "docs ")
           (list_ascii_of_string "http://x/y") (list_ascii_of_string " here")
           (list_ascii_of_string " now"));
    apply (bool_decide_unpack _); vm_compute; exact I.
Defined.

Lemma format_links_never_returns_on_runaway_witness :
  format_links 7 "x [a) b] c" = None.
Proof.
  apply (format_links_never_returns_on_runaway "x [a) b] c" 7).
  exists (list_ascii_of_string "x "), (list_ascii_of_string "a"),
         (list_ascii_of_string " b"), (list_ascii_of_string " c").
  split; [reflexivity|].
  repeat split; apply (bool_decide_unpack _); vm_compute; exact I.
Defined.

End FormatterInstances.

(** ** The state file *)

(** X6. Round trip through the state file: when the rewrite succeeds, a
    process started afterwards holds exactly the saved set. *)
Theorem saved_events_are_reloaded events w :
  disk w = [] \/ (exists d, disk w = Written :: d) ->
  processed_events (start_process (save_processed_events events w).2) = events.
Proof.
  unfold start_process, save_processed_events, load_processed_events. simpl.
  intros [-> | [d ->]]; simpl; apply list_to_set_elements_L.
Qed.

(** X7. A rewrite that fails is swallowed: [save_processed_events] returns
    without raising and the set in memory is as before; the file is the
    former one when [open] failed, and unreadable (so a start loads the
    empty set) when [json.dump] failed. *)
Theorem failed_save_is_swallowed events w a d :
  disk w = a :: d -> a ≠ Written ->
  exists w',
    save_processed_events events w = (Ret tt, w') /\
    processed_events w' = processed_events w /\
    load_processed_events w'
    = match a with
      | OpenFails => load_processed_events w
      | _ => ∅
      end.
Proof.
  intros Hd Ha. unfold save_processed_events, load_processed_events.
  rewrite Hd. destruct a; [done|..]; eexists; (split; [reflexivity|]); done.
Qed.

(** X8. The claim of an event whose rewrite failed in [json.dump] does not
    survive a restart: the process started afterwards holds no event, so
    any delivery that is neither a handshake nor a retry, the same event
    included, passes the dedup check again. *)
Theorem claim_with_failed_dump_is_lost_by_restart req req' w d :
  disk w = DumpFails :: d ->
  type req' ≠ Some "url_verification"%string ->
  truthy (retry_num req') = false ->
  let w' := start_process (claim req w).2 in
  processed_events w' = ∅ /\ intake req' w' = (Ret (inr tt), w').
Proof.
  intros Hd Ht Hr w'.
  assert (He : processed_events w' = ∅).
  { subst w'. unfold start_process. simpl.
    by apply failed_dump_is_forgotten with d. }
  split; [done|].
  apply intake_passes; [done..|]. rewrite He. apply not_elem_of_empty.
Qed.

(** X9. After a claim whose rewrite succeeds, the file lists each processed
    identifier once: its entries are without repetition and are the
    identifier of the event and the ones that were in the set. *)
Theorem claimed_file_lists_each_event_once req w :
  disk w = [] \/ (exists d, disk w = Written :: d) ->
  exists ids,
    persisted (claim req w).2 = Some ids /\
    NoDup ids /\
    forall x, x ∈ ids <-> x = event_id req \/ x ∈ processed_events w.
Proof.
  intros Hd.
  exists (elements ({[ event_id req ]} ∪ processed_events w)).
  split; [|split].
  - unfold claim, save_processed_events. simpl.
    by destruct Hd as [-> | [d ->]].
  - apply NoDup_elements.
  - intros x. rewrite elem_of_elements, elem_of_union, elem_of_singleton.
    done.
Qed.

(** X10. Claiming an event a second time changes neither the set nor (the
    rewrites succeeding) the content of the file. *)
Theorem second_claim_changes_nothing req w :
  disk w = [] ->
  let w1 := (claim req w).2 in
  processed_events (claim req w1).2 = processed_events w1 /\
  persisted (claim req w1).2 = persisted w1.
Proof.
  intros Hd w1.
  assert (Hs : {[ event_id req ]} ∪ ({[ event_id req ]} ∪ processed_events w)
               = {[ event_id req ]} ∪ processed_events w).
  { by rewrite (assoc_L (∪)), union_idemp_L. }
  subst w1. unfold claim, save_processed_events. simpl.
  rewrite Hd. simpl. rewrite Hd. simpl. by rewrite Hs.
Qed.

Section StoreInstances.
Import Scenario.
Open Scope string_scope.

Lemma saved_events_are_reloaded_witness :
  processed_events
    (start_process
       (save_processed_events {[ Some "Ev1"; Some "Ev2" ]} two_runs).2)
  = {[ Some "Ev1"; Some "Ev2" ]}.
Proof.
  apply (saved_events_are_reloaded {[ Some "Ev1"; Some "Ev2" ]} two_runs).
  left. reflexivity.
Defined.

Lemma failed_save_is_swallowed_witness :
  exists w',
    save_processed_events {[ Some "Ev1" ]} full_disk = (Ret tt, w') /\
    processed_events w' = processed_events full_disk /\
    load_processed_events w' = ∅.
Proof.
  apply (failed_save_is_swallowed {[ Some "Ev1" ]} full_disk DumpFails []).
  - reflexivity.
  - discriminate.
Defined.

Lemma claim_with_failed_dump_is_lost_by_restart_witness :
  let w' := start_process (claim delivery full_disk).2 in
  processed_events w' = ∅ /\ intake delivery w' = (Ret (inr tt), w').
Proof.
  apply (claim_with_failed_dump_is_lost_by_restart delivery delivery
           full_disk []).
  - reflexivity.
  - discriminate.
  - reflexivity.
Defined.

Lemma claimed_file_lists_each_event_once_witness :
  exists ids,
    persisted (claim delivery seen).2 = Some ids /\
    NoDup ids /\
    forall x, x ∈ ids <-> x = event_id delivery \/ x ∈ processed_events seen.
Proof.
  apply (claimed_file_lists_each_event_once delivery seen).
  left. reflexivity.
Defined.

Lemma second_claim_changes_nothing_witness :
  let w1 := (claim delivery two_runs).2 in
  processed_events (claim delivery w1).2 = processed_events w1 /\
  persisted (claim delivery w1).2 = persisted w1.
Proof.
  apply (second_claim_changes_nothing delivery two_runs). reflexivity.
Defined.

End StoreInstances.

(** ** The polling loop, read backwards *)

Lemma poll_returned tid script : forall trace status script' trace',
  poll tid script trace = (Ret status, script', trace') ->
  status ∈ terminal_statuses /\
  exists n more,
    Forall pending_answer (take n script) /\
    script !! n = Some (status :: more) /\
    script' = drop (S n) script /\
    trace' = trace ++ waits tid n ++ [GetRuns tid].
Proof.
  induction script as [|run_data script IH]; intros trace status script' trace';
    simpl; [done|].
  destruct run_data as [|s more]; [done|].
  case_bool_decide as Hs.
  - intros [= <- <- <-]. split; [done|].
    exists O, more.
    split; [constructor|]. split; [done|]. split; [by rewrite drop_0|done].
  - intros H. apply IH in H as (Ht & n & more' & Hp & Hn & -> & ->).
    split; [done|]. exists (S n), more'.
    split; [|split; [done|split; [done|]]].
    + simpl. constructor; [|done]. by exists s, more.
    + simpl. by rewrite <- !app_assoc.
Qed.

(** X11. [wait_for_run_completion] returns nothing but [completed],
    [failed] or [incomplete]; when it returns, every poll before the last
    observed another status and was followed by a sleep of 5, and the last
    poll observed the status returned. *)
Theorem wait_for_run_completion_returns_terminal tid w status w' :
  wait_for_run_completion tid w = (Ret status, w') ->
  status ∈ terminal_statuses /\
  exists n more,
    Forall pending_answer (take n (runs_listed w)) /\
    runs_listed w !! n = Some (status :: more) /\
    runs_listed w' = drop (S n) (runs_listed w) /\
    calls w' = calls w ++ waits tid n ++ [GetRuns tid].
Proof.
  unfold wait_for_run_completion.
  destruct (poll tid (runs_listed w) (calls w)) as [[o script] trace] eqn:Hp.
  intros [= -> <-].
  apply poll_returned in Hp as (Ht & n & more & H1 & H2 & -> & ->).
  split; [done|]. by exists n, more.
Qed.

(** X12. The loop has no bound: as long as the polls observe statuses other
    than the three terminal ones it sleeps and polls again, however many
    there are; after [n] such answers it has issued [n + 1] status requests
    and is waiting for the next answer. *)
Theorem wait_for_run_completion_never_gives_up tid w :
  Forall pending_answer (runs_listed w) ->
  wait_for_run_completion tid w
  = (Hang,
     with_runs_listed []
       (with_calls
          (calls w ++ waits tid (List.length (runs_listed w)) ++ [GetRuns tid])
          w)).
Proof.
  intros Hp. unfold wait_for_run_completion.
  rewrite <- (app_nil_r (runs_listed w)) at 1.
  rewrite poll_skips by done. simpl. by rewrite <- app_assoc.
Qed.

(** ** The paths of step 5 *)

Lemma try_except_ret {A} (m : M A) h w a w' :
  m w = (Ret a, w') -> try_except m h w = (Ret a, w').
Proof. intros H. unfold try_except. by rewrite H. Qed.

Lemma try_except_raises {A} (m : M A) h w e w' :
  m w = (Raise e, w') -> try_except m h w = h e w'.
Proof. intros H. unfold try_except. by rewrite H. Qed.

Lemma bind_raises {A B} (m : M A) (k : A -> M B) w e w' :
  m w = (Raise e, w') -> (m ≫= k) w = (Raise e, w').
Proof. intros H. unfold mbind, M_bind, bind. by rewrite H. Qed.









(** ** More on the notifier *)

(** X17. When Slack refuses the reply and the alert to the administrator
    as well, the second failure escapes [send_gpt_response] as a
    [SlackApiError]; the notifier has issued the lookup and the two
    messages. *)
Theorem failed_alert_escapes admin fuel channel ts t formatted w a rest
    error s error' s' ps :
  format_links fuel t = Some formatted ->
  replies w = a :: rest ->
  last_seen a ≠ Some formatted ->
  posts w = SlackFails error s :: SlackFails error' s' :: ps ->
  send_gpt_response admin fuel channel ts t w
  = (Raise (SlackApiError error' s'),
     with_posts ps
       (with_replies rest
          (with_calls
             (calls w ++
                [ConversationsReplies channel ts;
                 ChatPostMessage channel ts formatted;
                 ChatPostMessage channel ts
                   ("<@" +:+ admin +:+ "> "
                      +:+ "Error sending message to Slack: " +:+ error)])
             w))).
Proof.
  intros Hf Hr Hne Hp. unfold send_gpt_response. rewrite Hf.
  rewrite (bind_ret _ _ _ _ _ (get_last_message_returns channel ts w a rest Hr)).
  rewrite bool_decide_true by done.
  unfold try_except_slack, chat_postMessage, mbind, M_bind, bind, issue, answer.
  simpl. rewrite Hp. simpl. by rewrite <- !app_assoc.
Qed.

(** The calls of the notifier when the last message seen differs from the
    formatted text: the lookup, the message, and the alert if the message
    was refused. *)
Lemma send_gpt_response_sent_calls admin fuel channel ts t formatted w a rest :
  format_links fuel t = Some formatted ->
  replies w = a :: rest ->
  last_seen a ≠ Some formatted ->
  calls (send_gpt_response admin fuel channel ts t w).2
  = calls w ++ ConversationsReplies channel ts
      :: ChatPostMessage channel ts formatted
      :: match posts w with
         | SlackFails error _ :: _ =>
             [ChatPostMessage channel ts
                ("<@" +:+ admin +:+ "> "
                   +:+ "Error sending message to Slack: " +:+ error)]
         | _ => []
         end.
Proof.
  intros Hf Hr Hne. unfold send_gpt_response. rewrite Hf.
  rewrite (bind_ret _ _ _ _ _ (get_last_message_returns channel ts w a rest Hr)).
  rewrite bool_decide_true by done.
  unfold try_except_slack, chat_postMessage, mbind, M_bind, bind, issue, answer.
  simpl. destruct (posts w) as [|[[]|error s] ps]; simpl;
    [by rewrite <- app_assoc..|].
  destruct ps as [|[] ?]; simpl; by rewrite <- !app_assoc.
Qed.

(** X18. One call of [send_gpt_response] looks the thread up at most once
    and posts at most two messages (the reply and the alert), in that
    order, and calls nothing else. *)
Theorem send_gpt_response_calls_are_bounded admin fuel channel ts t w :
  exists trace,
    calls (send_gpt_response admin fuel channel ts t w).2 = calls w ++ trace /\
    (trace = [] \/
     exists posted,
       trace = ConversationsReplies channel ts :: posted /\
       (List.length posted <= 2)%nat /\
       Forall (fun c => exists t', c = ChatPostMessage channel ts t') posted).
Proof.
  destruct (format_links fuel t) as [formatted|] eqn:Hf.
  2:{ exists []. unfold send_gpt_response. rewrite Hf.
      split; [by rewrite app_nil_r|by left]. }
  destruct (replies w) as [|a rest] eqn:Hr.
  { exists [ConversationsReplies channel ts]. split.
    - unfold send_gpt_response. rewrite Hf.
      unfold get_last_message, try_except_slack, conversations_replies,
        mbind, M_bind, bind, issue, answer. simpl. by rewrite Hr.
    - right. exists []. split; [done|]. split; [simpl; lia|constructor]. }
  destruct (decide (last_seen a = Some formatted)) as [Heq|Hne].
  { exists [ConversationsReplies channel ts]. split.
    - by rewrite (send_gpt_response_suppresses admin fuel channel ts t
                    formatted w a rest Hf Hr Heq).
    - right. exists []. split; [done|]. split; [simpl; lia|constructor]. }
  eexists. split.
  { apply (send_gpt_response_sent_calls admin fuel channel ts t formatted
             w a rest Hf Hr Hne). }
  right. eexists. split; [reflexivity|].
  destruct (posts w) as [|[[]|error s] ps]; simpl;
    (split; [lia|]); repeat constructor; eauto.
Qed.

(** ** More on the handler *)

(** X19. A handshake is echoed and nothing else happens: whatever the retry
    header and the event identifier of the call, the response is the
    challenge and the world (set, file, trace) is as before. *)
Theorem handshake_is_echoed admin fuel req w :
  type req = Some "url_verification"%string ->
  slack admin fuel req w = (Ret (JsonChallenge (challenge req)), w).
Proof.
  intros Ht. unfold slack, mbind, M_bind, bind, intake.
  by rewrite bool_decide_true.
Qed.

(** X20. A call with a non-empty retry header is acknowledged and dropped:
    the response is [{"status": "ok"}] and the world is as before, so an
    event that was never processed is not claimed and not processed by its
    retry. *)
Theorem retry_is_acknowledged_and_dropped admin fuel req w :
  type req ≠ Some "url_verification"%string ->
  truthy (retry_num req) = true ->
  slack admin fuel req w = (Ret (JsonStatus "ok" None), w).
Proof.
  intros Ht Hr. unfold slack, mbind, M_bind, bind, intake.
  rewrite bool_decide_false by done. by rewrite Hr.
Qed.

(** X21. An empty retry header counts as no retry header: the call is
    handled exactly like the same call without the header. *)
Theorem empty_retry_header_is_no_retry admin fuel req w :
  retry_num req = Some ""%string ->
  slack admin fuel req w = slack admin fuel (without_retry_header req) w.
Proof.
  intros Hr. unfold slack, mbind, M_bind, bind, intake, claim, execute,
    reply_completed, reply_failed, on_exception.
  rewrite Hr. reflexivity.
Qed.

(** *** What escapes the handler *)



(** *** What the handler answers *)

Section MayReturn.
Context {A : Type} (Q : A -> Prop).

Lemma may_return_ret (a : A) : Q a -> may_return Q (mret a).
Proof. by intros Ha w a' w' [= <- _]. Qed.

Lemma may_return_bind {B} (m : M B) (k : B -> M A) :
  (forall b, may_return Q (k b)) -> may_return Q (m ≫= k).
Proof.
  intros Hk w a w'. unfold mbind, M_bind, bind.
  destruct (m w) as [[b|e0|] w0]; [apply Hk|done..].
Qed.

Lemma may_return_try_except (m : M A) h :
  may_return Q m -> (forall e, may_return Q (h e)) ->
  may_return Q (try_except m h).
Proof.
  intros Hm Hh w a w'. unfold try_except.
  destruct (m w) as [[a0|e0|] w0] eqn:Hmw; [|apply Hh|done].
  intros [= <- <-]. by eapply Hm.
Qed.

End MayReturn.

Lemma may_return_execute admin fuel req :
  may_return step_5_response (execute admin fuel req).
Proof.
  unfold execute. apply may_return_try_except.
  - apply may_return_bind. intros run.
    apply may_return_bind. intros status. case_bool_decide.
    + unfold reply_completed.
      do 3 (apply may_return_bind; intros ?).
      apply may_return_ret. by left.
    + unfold reply_failed. apply may_return_bind. intros _.
      apply may_return_ret. right. eauto.
  - intros e. unfold on_exception. apply may_return_bind. intros _.
    apply may_return_ret. right. eauto.
Qed.

(** X23. What the handler answers: the challenge to a handshake and to
    nothing else; otherwise a status, which is [ok] without message, [ok]
    with "Event already processed", or [error] with a message. *)
Theorem responses_of_the_handler admin fuel req w r w' :
  slack admin fuel req w = (Ret r, w') ->
  (type req = Some "url_verification"%string /\
   r = JsonChallenge (challenge req)) \/
  (type req ≠ Some "url_verification"%string /\
   (r = JsonStatus "ok" None \/
    r = JsonStatus "ok" (Some "Event already processed"%string) \/
    exists msg, r = JsonStatus "error" (Some msg))).
Proof.
  unfold slack, mbind, M_bind, bind, intake.
  case_bool_decide as Ht.
  { intros [= <- <-]. by left. }
  intros H. right. split; [done|]. revert H.
  destruct (truthy (retry_num req)).
  { intros [= <- <-]. by left. }
  case_bool_decide.
  { intros [= <- <-]. right. by left. }
  destruct (claim_returns req w) as [w1 ->]. intros Hx.
  destruct (may_return_execute admin fuel req _ _ _ Hx) as [-> | [msg ->]];
    [by left|right; right; eauto].
Qed.

(** *** The order of the calls *)

Lemma bind_hangs {A B} (m : M A) (k : A -> M B) w w' :
  m w = (Hang, w') -> (m ≫= k) w = (Hang, w').
Proof. intros H. unfold mbind, M_bind, bind. by rewrite H. Qed.

Lemma try_except_hangs {A} (m : M A) h w w' :
  m w = (Hang, w') -> try_except m h w = (Hang, w').
Proof. intros H. unfold try_except. by rewrite H. Qed.

Lemma create_thread_calls input_text w :
  calls (create_thread input_text w).2
  = calls w ++ [PostThreadsRuns input_text].
Proof.
  unfold create_thread, mbind, M_bind, bind, issue, answer. simpl.
  destruct (runs_created w) as [|r rc]; simpl; [done|].
  by case_bool_decide.
Qed.

Lemma execute_call_order admin fuel req w :
  exists polls tail,
    calls (execute admin fuel req w).2
    = calls w ++ PostThreadsRuns (user_message req) :: polls ++ tail /\
    Forall poll_or_sleep polls /\
    (Forall slack_call tail \/
     exists tid tail',
       tail = GetMessages tid :: tail' /\ Forall slack_call tail').
Proof.
  assert (Hslack : forall e w0,
            exists tail, calls (on_exception admin fuel req e w0).2
                         = calls w0 ++ tail /\ Forall slack_call tail).
  { intros e w0.
    destruct (follows_on_exception slack_call admin fuel req e I (fun _ => I) w0)
      as (_ & _ & _ & tail & ? & ?). eauto. }
  unfold execute.
  pose proof (create_thread_calls (user_message req) w) as Hc1.
  destruct (create_thread (user_message req) w) as [[run|e|] w1] eqn:Hc;
    simpl in Hc1.
  - rewrite (try_except_bind_ret _ _ _ _ _ _ Hc).
    destruct (follows_wait_for_run_completion poll_or_sleep (thread_id run)
                I I w1) as (_ & _ & _ & polls & Hp & Hpolls).
    destruct (wait_for_run_completion (thread_id run) w1)
      as [[status|e|] w2] eqn:Hw; simpl in Hp.
    + rewrite (try_except_bind_ret _ _ _ _ _ _ Hw).
      case_bool_decide.
      * destruct (reply_completed_calls admin fuel req (thread_id run) w2)
          as (tail & Ht & Hok).
        exists polls, (GetMessages (thread_id run) :: tail).
        split; [|split; [done|right; eauto]].
        rewrite Ht, Hp, Hc1. by rewrite <- !app_assoc.
      * assert (Hf : follows (advances slack_call)
                       (try_except (reply_failed admin fuel req status)
                          (on_exception admin fuel req))).
        { apply follows_try_except.
          - by apply follows_reply_failed.
          - intros e. by apply follows_on_exception. }
        destruct (Hf w2) as (_ & _ & _ & tail & Ht & Hok).
        exists polls, tail. split; [|split; [done|by left]].
        rewrite Ht, Hp, Hc1. by rewrite <- !app_assoc.
    + rewrite (try_except_raises _ _ _ _ _ (bind_raises _ _ _ _ _ Hw)).
      destruct (Hslack e w2) as (tail & Ht & Hok).
      exists polls, tail. split; [|split; [done|by left]].
      rewrite Ht, Hp, Hc1. by rewrite <- !app_assoc.
    + rewrite (try_except_hangs _ _ _ _ (bind_hangs _ _ _ _ Hw)).
      exists polls, []. split; [|split; [done|by left]].
      simpl. rewrite Hp, Hc1, app_nil_r. by rewrite <- !app_assoc.
  - rewrite (try_except_raises _ _ _ _ _ (bind_raises _ _ _ _ _ Hc)).
    destruct (Hslack e w1) as (tail & Ht & Hok).
    exists [], tail. split; [|split; [constructor|by left]].
    rewrite Ht, Hc1. by rewrite <- !app_assoc.
  - rewrite (try_except_hangs _ _ _ _ (bind_hangs _ _ _ _ Hc)).
    exists [], []. split; [|split; [constructor|by left]].
    simpl. by rewrite Hc1.
Qed.

(** X24. The calls of the handler for a fresh event come in one order,
    whatever the answers: the rewrite of the state file, one run creation,
    then status requests and sleeps, then at most one message fetch, then
    calls to Slack only. In particular no run creation and no fetch is
    repeated, and Slack is not called before the polling is over. *)
Theorem calls_of_the_handler_are_ordered admin fuel req w :
  type req ≠ Some "url_verification"%string ->
  truthy (retry_num req) = false ->
  event_id req ∉ processed_events w ->
  exists polls tail,
    calls (slack admin fuel req w).2
    = calls w
        ++ DumpFile (elements ({[ event_id req ]} ∪ processed_events w))
        :: PostThreadsRuns (user_message req) :: polls ++ tail /\
    Forall poll_or_sleep polls /\
    (Forall slack_call tail \/
     exists tid tail',
       tail = GetMessages tid :: tail' /\ Forall slack_call tail').
Proof.
  intros Ht Hr He. rewrite slack_fresh by done.
  destruct (execute_call_order admin fuel req (claim req w).2)
    as (polls & tail & Hc & Hp & Htail).
  exists polls, tail. split; [|done].
  rewrite Hc, claim_calls. by rewrite <- app_assoc.
Qed.

(** ** More on concurrent deliveries *)

Lemma step_rejects_the_duplicate admin fuel i sys req :
  threads sys !! i = Some (Thread req AtIntake) ->
  type req ≠ Some "url_verification"%string ->
  truthy (retry_num req) = false ->
  event_id req ∈ processed_events (shared sys) ->
  step admin fuel i sys
  = Some (System (shared sys) (lock_held sys)
            (at_pc i
               (Finished
                  (Ret (JsonStatus "ok"
                          (Some "Event already processed"%string))))
               (threads sys))).
Proof.
  intros Hth Ht Hr He. unfold step. rewrite Hth. simpl. unfold intake.
  rewrite bool_decide_false by done. rewrite Hr.
  by rewrite bool_decide_true.
Qed.

(** X25. Claim before work: a second delivery of an event that is checked
    after the first delivery has claimed it is acknowledged as already
    processed at once, while the first thread is still before step 5 and
    holds the lock. *)
Theorem duplicate_after_the_claim_is_rejected admin fuel req w :
  type req ≠ Some "url_verification"%string ->
  truthy (retry_num req) = false ->
  event_id req ∉ processed_events w ->
  run admin fuel [0; 0; 0; 1]%nat (deliver [req; req] w)
  = Some (System (claim req w).2 true
            [Thread req AtExecute;
             Thread req
               (Finished
                  (Ret (JsonStatus "ok"
                          (Some "Event already processed"%string))))]).
Proof.
  intros Ht Hr He. unfold deliver. cbn [run fmap list_fmap].
  rewrite (step_passes_the_check admin fuel 0 _ req) by done.
  cbn [mbind option_bind shared lock_held threads].
  rewrite (step_takes_the_lock admin fuel 0 _ req) by done.
  cbn [mbind option_bind shared lock_held threads].
  destruct (claim_returns req w) as [w1 Hc].
  pose proof (claim_processed_events req w) as Hpe.
  rewrite Hc in *. simpl in Hpe.
  rewrite (step_claims admin fuel 0 _ req w1) by done.
  cbn [mbind option_bind shared lock_held threads].
  rewrite (step_rejects_the_duplicate admin fuel 1 _ req); try done.
  simpl. rewrite Hpe. apply elem_of_union_l, elem_of_singleton_2. reflexivity.
Qed.

(** Moving one thread to another point changes the number of threads
    inside the block by what that thread contributes. *)
Lemma holders_at_pc p ts : forall i th,
  ts !! i = Some th ->
  (List.length (List.filter inside (at_pc i p ts))
   + (if inside th then 1 else 0)
   = List.length (List.filter inside ts)
     + (if inside (Thread (th_request th) p) then 1 else 0))%nat.
Proof.
  unfold at_pc.
  induction ts as [|th0 ts IH]; intros i th; [done|].
  destruct i as [|i]; cbn [lookup list_lookup alter list_alter List.filter].
  - intros [= ->].
    destruct (inside th), (inside (Thread (th_request th) p));
      cbn [List.length]; lia.
  - intros H. specialize (IH i th H).
    destruct (inside th0); cbn [List.length]; lia.
Qed.

Lemma intake_returns req w : exists r, intake req w = (Ret r, w).
Proof. unfold intake. repeat case_match; eauto. Qed.

Lemma step_exclusive admin fuel i sys sys' :
  exclusive sys -> step admin fuel i sys = Some sys' -> exclusive sys'.
Proof.
  unfold step, exclusive, holders.
  destruct (threads sys !! i) as [th|] eqn:Hth; simpl; [|done].
  intros Hex.
  assert (Hmove : forall p b,
            inside (Thread (th_request th) p) = b ->
            (List.length (List.filter inside (at_pc i p (threads sys)))
             + (if inside th then 1 else 0)
             = List.length (List.filter inside (threads sys))
               + (if b then 1 else 0))%nat).
  { intros p b <-. by apply holders_at_pc. }
  destruct (th_pc th) as [| | | |o] eqn:Hpc.
  - assert (Hin : inside th = false) by (unfold inside; by rewrite Hpc).
    destruct (intake_returns (th_request th) (shared sys)) as [r ->].
    intros [= <-]. simpl.
    assert (Hh : (List.length
                    (List.filter inside
                       (at_pc i
                          match r with
                          | inl resp => Finished (Ret resp)
                          | inr _ => AtLock
                          end (threads sys)))
                  + (if inside th then 1 else 0)
                  = List.length (List.filter inside (threads sys)) + 0)%nat).
    { apply (Hmove _ false). by destruct r. }
    rewrite Hin in Hh. lia.
  - assert (Hin : inside th = false) by (unfold inside; by rewrite Hpc).
    destruct (lock_held sys); [done|]. intros [= <-]. simpl.
    pose proof (Hmove AtClaim true eq_refl) as Hh. rewrite Hin in Hh. lia.
  - assert (Hin : inside th = true) by (unfold inside; by rewrite Hpc).
    pose proof (Hmove AtLock false eq_refl) as Hpos. rewrite Hin in Hpos.
    destruct (lock_held sys); [|lia].
    destruct (claim _ _) as [[[]| |] w]; intros [= <-]; simpl.
    + pose proof (Hmove AtExecute true eq_refl) as Hh. rewrite Hin in Hh. lia.
    + pose proof (Hmove (Finished (Raise e)) false eq_refl) as Hh.
      rewrite Hin in Hh. lia.
    + pose proof (Hmove (Finished Hang) true eq_refl) as Hh.
      rewrite Hin in Hh. lia.
  - assert (Hin : inside th = true) by (unfold inside; by rewrite Hpc).
    pose proof (Hmove AtLock false eq_refl) as Hpos. rewrite Hin in Hpos.
    destruct (lock_held sys); [|lia].
    destruct (execute _ _ _ _) as [[r|e|] w]; intros [= <-]; simpl.
    + pose proof (Hmove (Finished (Ret r)) false eq_refl) as Hh.
      rewrite Hin in Hh. lia.
    + pose proof (Hmove (Finished (Raise e)) false eq_refl) as Hh.
      rewrite Hin in Hh. lia.
    + pose proof (Hmove (Finished Hang) true eq_refl) as Hh.
      rewrite Hin in Hh. lia.
  - done.
Qed.

(** X26. Mutual exclusion of the [with event_lock:] block: in every state
    the server reaches from the arrival of any calls, under any schedule,
    the lock is held exactly when a thread is between lines 184 and 219,
    a thread blocked there for good included, and no second thread is
    there with it. *)
Theorem with_block_is_exclusive admin fuel reqs w schedule sys :
  run admin fuel schedule (deliver reqs w) = Some sys -> exclusive sys.
Proof.
  assert (H0 : exclusive (deliver reqs w)).
  { unfold exclusive, holders, deliver. simpl.
    induction reqs as [|r reqs IH]; [done|]. simpl. exact IH. }
  revert H0. generalize (deliver reqs w). clear reqs w.
  induction schedule as [|i schedule IH]; intros sys0 H0; simpl.
  - by intros [= <-].
  - destruct (step admin fuel i sys0) as [sys1|] eqn:Hs; simpl; [|done].
    apply IH. by eapply step_exclusive.
Qed.

(** ** The further statements at concrete calls *)

Section FurtherInstances.
Import Scenario.
Open Scope string_scope.

Lemma wait_for_run_completion_returns_terminal_witness :
  "completed" ∈ terminal_statuses /\
  exists n more,
    Forall pending_answer (take n (runs_listed cancelled_run)) /\
    runs_listed cancelled_run !! n = Some ("completed" :: more) /\
    runs_listed
      (with_runs_listed []
         (with_calls
            (calls cancelled_run ++ waits (Some "thread_a") 1
               ++ [GetRuns (Some "thread_a")])%list
            cancelled_run))
    = drop (S n) (runs_listed cancelled_run) /\
    calls
      (with_runs_listed []
         (with_calls
            (calls cancelled_run ++ waits (Some "thread_a") 1
               ++ [GetRuns (Some "thread_a")])%list
            cancelled_run))
    = (calls cancelled_run ++ waits (Some "thread_a") n
         ++ [GetRuns (Some "thread_a")])%list.
Proof.
  apply (wait_for_run_completion_returns_terminal (Some "thread_a")
           cancelled_run "completed").
  reflexivity.
Defined.

Lemma wait_for_run_completion_never_gives_up_witness :
  wait_for_run_completion (Some "thread_a") stalled_run
  = (Hang,
     with_runs_listed []
       (with_calls
          (calls stalled_run
             ++ waits (Some "thread_a") (List.length (runs_listed stalled_run))
             ++ [GetRuns (Some "thread_a")])%list
          stalled_run)).
Proof.
  apply (wait_for_run_completion_never_gives_up (Some "thread_a") stalled_run).
  repeat (apply Forall_cons; split); try constructor;
    unfold pending_answer; do 2 eexists; (split; [reflexivity|]);
    apply (bool_decide_unpack _); vm_compute; exact I.
Defined.





Lemma failed_alert_escapes_witness :
  send_gpt_response admin 5 (Some "C1") (Some "1700.01")
    "see [docs](http://x/y) now" slack_down
  = (Raise (SlackApiError "ratelimited" "rate limited (2)"),
     with_posts
       [SlackFails "ratelimited" "rate limited (3)";
        SlackFails "ratelimited" "rate limited (4)"]
       (with_replies [SlackOk ["hello"]]
          (with_calls
             (calls slack_down ++
                [ConversationsReplies (Some "C1") (Some "1700.01");
                 ChatPostMessage (Some "C1") (Some "1700.01")
                   "see <http://x/y|docs> now";
                 ChatPostMessage (Some "C1") (Some "1700.01")
                   ("<@" +:+ admin +:+ "> "
                      +:+ "Error sending message to Slack: "
                      +:+ "ratelimited")])%list
             slack_down))).
Proof.
  apply (failed_alert_escapes admin 5 (Some "C1") (Some "1700.01")
           "see [docs](http://x/y) now" "see <http://x/y|docs> now"
           slack_down (SlackOk ["hello"]) [SlackOk ["hello"]]
           "ratelimited" "rate limited (1)"
           "ratelimited" "rate limited (2)").
  - reflexivity.
  - reflexivity.
  - discriminate.
  - reflexivity.
Defined.

Lemma handshake_is_echoed_witness :
  slack admin 5 handshake seen = (Ret (JsonChallenge (Some "abc123")), seen).
Proof. apply (handshake_is_echoed admin 5 handshake seen). reflexivity. Defined.

Lemma retry_is_acknowledged_and_dropped_witness :
  slack admin 5 retried_delivery two_runs
  = (Ret (JsonStatus "ok" None), two_runs).
Proof.
  apply (retry_is_acknowledged_and_dropped admin 5 retried_delivery two_runs).
  - discriminate.
  - reflexivity.
Defined.

Lemma empty_retry_header_is_no_retry_witness :
  slack admin 5 delivery_with_empty_header two_runs
  = slack admin 5 (without_retry_header delivery_with_empty_header) two_runs.
Proof.
  apply (empty_retry_header_is_no_retry admin 5 delivery_with_empty_header
           two_runs).
  reflexivity.
Defined.


Lemma responses_of_the_handler_witness :
  (type delivery = Some "url_verification" /\
   JsonStatus "ok" (Some "Event already processed")
   = JsonChallenge (challenge delivery)) \/
  (type delivery ≠ Some "url_verification" /\
   (JsonStatus "ok" (Some "Event already processed") = JsonStatus "ok" None \/
    JsonStatus "ok" (Some "Event already processed")
    = JsonStatus "ok" (Some "Event already processed") \/
    exists msg,
      JsonStatus "ok" (Some "Event already processed")
      = JsonStatus "error" (Some msg))).
Proof.
  apply (responses_of_the_handler admin 5 delivery seen _ seen).
  vm_compute. reflexivity.
Defined.

Lemma calls_of_the_handler_are_ordered_witness :
  exists polls tail,
    calls (slack admin 5 delivery slow_run).2
    = (calls slow_run
         ++ DumpFile (elements ({[ event_id delivery ]}
                                  ∪ processed_events slow_run))
         :: PostThreadsRuns (user_message delivery) :: polls ++ tail)%list /\
    Forall poll_or_sleep polls /\
    (Forall slack_call tail \/
     exists tid tail',
       tail = GetMessages tid :: tail' /\ Forall slack_call tail').
Proof.
  apply (calls_of_the_handler_are_ordered admin 5 delivery slow_run).
  - discriminate.
  - reflexivity.
  - apply (bool_decide_unpack _). vm_compute. exact I.
Defined.

Lemma duplicate_after_the_claim_is_rejected_witness :
  run admin 5 [0; 0; 0; 1]%nat (deliver [delivery; delivery] two_runs)
  = Some (System (claim delivery two_runs).2 true
            [Thread delivery AtExecute;
             Thread delivery
               (Finished
                  (Ret (JsonStatus "ok" (Some "Event already processed"))))]).
Proof.
  apply (duplicate_after_the_claim_is_rejected admin 5 delivery two_runs).
  - discriminate.
  - reflexivity.
  - apply (bool_decide_unpack _). vm_compute. exact I.
Defined.

(** The first delivery blocks in the polling and keeps the lock; the
    second one waits at line 182. *)
Lemma with_block_is_exclusive_witness :
  exists sys,
    run admin 5 [0; 1; 0; 0; 0]%nat (deliver [delivery; delivery] stalled_run)
    = Some sys /\
    th_pc <$> threads sys = [Finished Hang; AtLock] /\
    exclusive sys.
Proof.
  eexists. split; [vm_compute; reflexivity|]. split; [reflexivity|].
  apply (with_block_is_exclusive admin 5 [delivery; delivery] stalled_run
           [0; 1; 0; 0; 0]%nat).
  vm_compute. reflexivity.
Defined.

End FurtherInstances.
